(** * PutkaRTS: the unit-checked scalar of src/util/Scalar.hpp

    A shallow embedding of [template <typename U1> struct Scalar] and of the
    free functions that follow it.  The unit tag is the index of a record
    type, so that Rocq's type checker plays the part of the C++ one; the
    magnitude is an IEEE 754 binary64 number, taken from the Standard
    Library's executable specification of floating-point arithmetic
    ([SpecFloat], precision 53, maximal exponent 1024). *)

From Stdlib Require Import ZArith Lia Bool List.
From Stdlib Require Import Floats.SpecFloat.
From stdpp Require Import base decidable option vector.

Local Open Scope Z_scope.

(* ================================================================== *)
(** ** Unit algebra (SIUnit.hpp) *)

Module SIUnit.

(** Modelled from the spec: SIUnit.hpp is not part of the sources.  A unit is
    a fixed-length vector of signed integer exponents, one per base
    dimension; the number [n] of base dimensions is left to the integrator,
    so every definition takes it as a parameter. *)
Definition Unit (n : nat) : Type := vec Z n.

(** Modelled from the spec: the default [SIUnit::Unit<>], all exponents 0. *)
Definition dimensionless {n : nat} : Unit n := vreplicate n 0.

(** Modelled from the spec: the macro [SIUnitAdd], component-wise sum. *)
Definition SIUnitAdd {n : nat} (U1 U2 : Unit n) : Unit n :=
  vzip_with Z.add U1 U2.

(** Modelled from the spec: the macro [SIUnitSub], component-wise
    difference. *)
Definition SIUnitSub {n : nat} (U1 U2 : Unit n) : Unit n :=
  vzip_with Z.sub U1 U2.

(** Modelled from the spec: the macro [SIUnitMul], every exponent multiplied
    by the integer [k]. *)
Definition SIUnitMul {n : nat} (U : Unit n) (k : Z) : Unit n :=
  vmap (fun e => e * k) U.

(** All exponents of [U] are exact multiples of [k]. *)
Definition divisible {n : nat} (U : Unit n) (k : Z) : bool :=
  forallb (fun e => e mod k =? 0) (vec_to_list U).

(** Modelled from the spec: the macro [SIUnitDiv], every exponent divided by
    the integer [k]; it has a result only when every division is exact. *)
Definition SIUnitDiv {n : nat} (U : Unit n) (k : Z) : option (Unit n) :=
  if divisible U k then Some (vmap (fun e => e / k) U) else None.

(** The three base dimensions the spec names, for concrete instances. *)
Definition length_unit : Unit 3 := [# 1; 0; 0].
Definition mass_unit : Unit 3 := [# 0; 1; 0].
Definition time_unit : Unit 3 := [# 0; 0; 1].

End SIUnit.

Export SIUnit.

(* ================================================================== *)
(** ** [double]: IEEE 754 binary64 *)

Module Double.

Definition prec : Z := 53.
Definition emax : Z := 1024.

(** [typedef double T] *)
Definition T : Type := spec_float.

(** The values a C++ [double] can hold: mantissa of at most 53 bits in
    canonical position, exponent in range. *)
Definition valid (x : T) : bool := valid_binary prec emax x.

Definition is_finite (x : T) : bool :=
  match x with
  | S754_zero _ | S754_finite _ _ _ => true
  | S754_infinity _ | S754_nan => false
  end.

(** The sign bit, where there is one (this model's NaN carries none). *)
Definition sign_of (x : T) : option bool :=
  match x with
  | S754_zero s | S754_infinity s | S754_finite s _ _ => Some s
  | S754_nan => None
  end.

(** Arithmetic operators of the language on [double]. *)
Definition add (x y : T) : T := SFadd prec emax x y.
Definition sub (x y : T) : T := SFsub prec emax x y.
Definition mul (x y : T) : T := SFmul prec emax x y.
Definition div (x y : T) : T := SFdiv prec emax x y.
Definition opp (x : T) : T := SFopp x.

(** Comparison operators of the language on [double]. *)
Definition lt (x y : T) : bool := SFltb x y.
Definition gt (x y : T) : bool := SFltb y x.
Definition le (x y : T) : bool := SFleb x y.
Definition ge (x y : T) : bool := SFleb y x.
Definition eq (x y : T) : bool := SFeqb x y.
Definition ne (x y : T) : bool := negb (SFeqb x y).

(** Conversion of an integer constant to [double] (exact for the small
    constants of the source). *)
Definition of_int (z : Z) : T := binary_normalize prec emax z 0 false.

(** Conversion of the decimal constant [num / den] to [double], correctly
    rounded: the division is carried out on the exact integers. *)
Definition of_decimal (num den : positive) : T :=
  SFdiv prec emax (S754_finite false num 0) (S754_finite false den 0).

(** Contextual conversion of a [double] to [bool]: zero (of either sign)
    gives [false], anything else, NaN included, gives [true]. *)
Definition to_bool (x : T) : bool := ne x (of_int 0).

(** [std::numeric_limits<double>] *)
Definition quiet_NaN : T := S754_nan.
Definition infinity : T := S754_infinity false.

(** [std::sqrt] *)
Definition sqrt (x : T) : T := SFsqrt prec emax x.

(** [fmod] of <cmath>, after ISO C 7.12.10.1 and F.10.7.1: the result is
    [x - k*y] for the integer [k] that leaves it with the sign of [x] and a
    magnitude below that of [y]; it is computed exactly.  NaN when [x] is
    infinite or [y] is zero; [x] itself when [x] is a zero or [y] is
    infinite. *)
Definition fmod (x y : T) : T :=
  match x, y with
  | S754_nan, _ | _, S754_nan => S754_nan
  | S754_infinity _, _ => S754_nan
  | _, S754_zero _ => S754_nan
  | S754_zero _, _ => x
  | S754_finite _ _ _, S754_infinity _ => x
  | S754_finite sx mx ex, S754_finite sy my ey =>
      let ez := Z.min ex ey in
      let r := Z.rem (Zpos (fst (shl_align mx ex ez)))
                     (Zpos (fst (shl_align my ey ez))) in
      binary_normalize prec emax (cond_Zopp sx r) ez sx
  end.

End Double.

(* ================================================================== *)
(** ** [struct Scalar] *)

Section ScalarDef.

Context {n : nat}.

(** [template <typename U1 = SIUnit::Unit<> > struct Scalar { T value; }] *)
Record Scalar (U1 : Unit n) : Type := mk { value : Double.T }.

End ScalarDef.

Arguments mk {n} U1 value.
Arguments value {n U1} _.

Module Scalar.

Section Members.

Context {n : nat}.
Implicit Types U : Unit n.

(** [typedef U1 Unit] *)
Definition unit_of {U1} (x : Scalar U1) : Unit n := U1.

(** [Scalar() : value(0)] *)
Definition default U1 : Scalar U1 := mk U1 (Double.of_int 0).

(** [Scalar(T _val) : value(_val)] is [mk U1]; [T operator * ()] is
    [value]. *)

(** Special values *)
Definition zero U1 : Scalar U1 := mk U1 (Double.of_int 0).
Definition nan U1 : Scalar U1 := mk U1 Double.quiet_NaN.
Definition infP U1 : Scalar U1 := mk U1 Double.infinity.
Definition infN U1 : Scalar U1 := mk U1 (Double.opp Double.infinity).
Definition inf0 U1 : Scalar U1 := infP U1.
Definition inf {U1} (dir : Scalar U1) : Scalar U1 :=
  if Double.lt (value dir) (Double.of_int 0) then infN U1 else infP U1.
Definition pi_num : positive :=
  31415926535897932384626433832795028841971693993751.
Definition pi_den : positive := 10 ^ 49.
Definition pi U1 : Scalar U1 := mk U1 (Double.of_decimal pi_num pi_den).

(** Checks for special cases *)
Definition isNaN {U1} (x : Scalar U1) : bool :=
  Double.ne (value x) (value x).
Definition isInf {U1} (x : Scalar U1) : bool :=
  Double.eq (value x) (value (infP U1))
  || Double.eq (value x) (value (infN U1)).
Definition isZero {U1} (x : Scalar U1) : bool :=
  Double.eq (value x) (Double.of_int 0).

(** Strip unit *)
Definition strip {U1} (x : Scalar U1) : Scalar (@dimensionless n) :=
  mk dimensionless (value x).

(** Opposite value *)
Definition neg {U1} (x : Scalar U1) : Scalar U1 :=
  mk U1 (Double.opp (value x)).

(** [operator BoolDummyType]: a null member pointer exactly when [value]
    converts to [false]; the result is used as a truth value. *)
Definition to_bool {U1} (x : Scalar U1) : bool :=
  if Double.to_bool (value x) then true else false.
(** [operator !] *)
Definition not {U1} (x : Scalar U1) : bool :=
  negb (Double.to_bool (value x)).

(** Comparisons *)
Definition lt {U1} (x t : Scalar U1) : bool := Double.lt (value x) (value t).
Definition gt {U1} (x t : Scalar U1) : bool := Double.gt (value x) (value t).
Definition le {U1} (x t : Scalar U1) : bool := Double.le (value x) (value t).
Definition ge {U1} (x t : Scalar U1) : bool := Double.ge (value x) (value t).
Definition eq {U1} (x t : Scalar U1) : bool := Double.eq (value x) (value t).
Definition ne {U1} (x t : Scalar U1) : bool := Double.ne (value x) (value t).

(** Addition, subtraction *)
Definition add {U1} (x t : Scalar U1) : Scalar U1 :=
  mk U1 (Double.add (value x) (value t)).
Definition sub {U1} (x t : Scalar U1) : Scalar U1 :=
  mk U1 (Double.sub (value x) (value t)).

(** Multiplication, division: any two units *)
Definition mul {U1 U2} (x : Scalar U1) (t : Scalar U2)
  : Scalar (SIUnitAdd U1 U2) :=
  mk (SIUnitAdd U1 U2) (Double.mul (value x) (value t)).
Definition div {U1 U2} (x : Scalar U1) (t : Scalar U2)
  : Scalar (SIUnitSub U1 U2) :=
  mk (SIUnitSub U1 U2) (Double.div (value x) (value t)).

(** The type of [x] is [Scalar<U>]; where a declaration asks for
    [Scalar<U'>] the program is well-formed only when both are the same
    type.  No conversion exists between two instances of the template: the
    converting constructor takes a [double], and a [Scalar] converts to
    nothing but a member pointer. *)
Definition as_unit {U} (U' : Unit n) (x : Scalar U) : option (Scalar U') :=
  match decide (U = U') with
  | left e => Some (eq_rect U Scalar x U' e)
  | right _ => None
  end.

(** Assignment shorthands: the new state of [*this], when the assignment
    [*this = ...] is well-typed. *)
Definition add_assign {U1} (x t : Scalar U1) : Scalar U1 := add x t.
Definition sub_assign {U1} (x t : Scalar U1) : Scalar U1 := sub x t.
Definition div_assign {U1} (x : Scalar U1) (t : Scalar (@dimensionless n))
  : option (Scalar U1) := as_unit U1 (div x t).
Definition mul_assign {U1} (x : Scalar U1) (t : Scalar (@dimensionless n))
  : option (Scalar U1) := as_unit U1 (mul x t).

(** Square *)
Definition pow2 {U1} (x : Scalar U1) : Scalar (SIUnitAdd U1 U1) := mul x x.

(** Absolute value *)
Definition abs {U1} (x : Scalar U1) : Scalar U1 :=
  mk U1 (if Double.lt (value x) (Double.of_int 0)
         then Double.opp (value x) else value x).

(** Modulo *)
Definition mod_ {U1} (x divisor : Scalar U1) : Scalar U1 :=
  mk U1 (Double.fmod (value x) (value divisor)).

End Members.

End Scalar.

Section FreeFunctions.

Context {n : nat}.
Implicit Types U : Unit n.

(** Square root; the template magic requires a helper. *)
Definition _sqrtHelper {U1} (x : Scalar (SIUnitMul U1 2)) : Scalar U1 :=
  mk U1 (Double.sqrt (value x)).

(** A scalar together with its unit: the result of an expression whose
    type is computed from its operands. *)
Definition AnyScalar : Type := { U : Unit n & Scalar U }.
Definition pack {U} (x : Scalar U) : AnyScalar := existT U x.

(** [sqrt(x)] calls [_sqrtHelper<SIUnitDiv(U1, 2)>(x)]: it is well-formed
    when [SIUnitDiv(U1, 2)] exists and [x] has the helper's parameter
    type. *)
Definition sqrt {U1} (x : Scalar U1) : option AnyScalar :=
  match SIUnitDiv U1 2 with
  | Some U' =>
      match Scalar.as_unit (SIUnitMul U' 2) x with
      | Some x' => Some (pack (_sqrtHelper x'))
      | None => None
      end
  | None => None
  end.

End FreeFunctions.

(** The transcendental functions take and return [Scalar<>]; their bodies
    call the C library ([std::pow], [std::exp], ...) and are not needed
    below. *)

(* ================================================================== *)
(** ** Which two-operand expressions are well-formed *)

Module Overload.

(** The members of [Scalar] that take a second scalar, written [x op t] or
    [x.mod(t)], and the two logical operators of the language, which apply
    to scalars through [operator BoolDummyType]. *)
Inductive Operation : Type :=
  | OpLt | OpGt | OpLe | OpGe | OpEq | OpNe
  | OpAdd | OpSub
  | OpMul | OpDiv
  | OpAddAssign | OpSubAssign | OpDivAssign | OpMulAssign
  | OpMod
  | OpAnd | OpOr.

Definition all_operations : list Operation :=
  [OpLt; OpGt; OpLe; OpGe; OpEq; OpNe; OpAdd; OpSub; OpMul; OpDiv;
   OpAddAssign; OpSubAssign; OpDivAssign; OpMulAssign; OpMod; OpAnd; OpOr].

Section Typing.

Context {n : nat}.

Inductive Ty : Type :=
  | TBool
  | TScalar (U : Unit n).

(** What an expression evaluates to: a truth value, or a scalar of some
    unit (for an assignment shorthand, the new state of the left
    operand). *)
Inductive Outcome : Type :=
  | OBool (b : bool)
  | OScalar (U : Unit n) (s : Scalar U).

Definition type_of (o : Outcome) : Ty :=
  match o with
  | OBool _ => TBool
  | OScalar U _ => TScalar U
  end.

(** The expression [x op t], with [x] a [Scalar<U1>] and [t] a
    [Scalar<U2>]: the call of the embedded member, with [t] passed for its
    parameter, see [Scalar.as_unit].  The unit of the parameter is not
    written here: it is the one in the type of the member ([_], filled in
    by type inference), which is the unit of [x] for the comparisons, [+],
    [-], [+=], [-=] and [mod], and the dimensionless one for [*=] and [/=].
    The templates [*] and [/] take a scalar of any unit.  [&&] and [||] are
    not members: each operand is converted to a truth value.  [None] stands
    for an ill-formed expression: there is nothing to execute. *)
Definition binary (op : Operation) {U1 U2 : Unit n}
    (x : Scalar U1) (t : Scalar U2) : option Outcome :=
  match op with
  | OpLt =>
      match Scalar.as_unit _ t with
      | Some t' => Some (OBool (Scalar.lt x t')) | None => None end
  | OpGt =>
      match Scalar.as_unit _ t with
      | Some t' => Some (OBool (Scalar.gt x t')) | None => None end
  | OpLe =>
      match Scalar.as_unit _ t with
      | Some t' => Some (OBool (Scalar.le x t')) | None => None end
  | OpGe =>
      match Scalar.as_unit _ t with
      | Some t' => Some (OBool (Scalar.ge x t')) | None => None end
  | OpEq =>
      match Scalar.as_unit _ t with
      | Some t' => Some (OBool (Scalar.eq x t')) | None => None end
  | OpNe =>
      match Scalar.as_unit _ t with
      | Some t' => Some (OBool (Scalar.ne x t')) | None => None end
  | OpAdd =>
      match Scalar.as_unit _ t with
      | Some t' => Some (OScalar _ (Scalar.add x t')) | None => None end
  | OpSub =>
      match Scalar.as_unit _ t with
      | Some t' => Some (OScalar _ (Scalar.sub x t')) | None => None end
  | OpMul => Some (OScalar _ (Scalar.mul x t))
  | OpDiv => Some (OScalar _ (Scalar.div x t))
  | OpAddAssign =>
      match Scalar.as_unit _ t with
      | Some t' => Some (OScalar _ (Scalar.add_assign x t')) | None => None end
  | OpSubAssign =>
      match Scalar.as_unit _ t with
      | Some t' => Some (OScalar _ (Scalar.sub_assign x t')) | None => None end
  | OpDivAssign =>
      match Scalar.as_unit _ t with
      | Some t' =>
          match Scalar.div_assign x t' with
          | Some r => Some (OScalar _ r) | None => None end
      | None => None
      end
  | OpMulAssign =>
      match Scalar.as_unit _ t with
      | Some t' =>
          match Scalar.mul_assign x t' with
          | Some r => Some (OScalar _ r) | None => None end
      | None => None
      end
  | OpMod =>
      match Scalar.as_unit _ t with
      | Some t' => Some (OScalar _ (Scalar.mod_ x t')) | None => None end
  | OpAnd => Some (OBool (Scalar.to_bool x && Scalar.to_bool t))
  | OpOr => Some (OBool (Scalar.to_bool x || Scalar.to_bool t))
  end.

(** The type of [x op t], [None] when it is ill-formed: whether the
    expression is well-formed does not depend on the magnitudes, so it is
    read off [binary] at two default-constructed operands. *)
Definition result_type (op : Operation) (U1 U2 : Unit n) : option Ty :=
  match binary op (Scalar.default U1) (Scalar.default U2) with
  | Some o => Some (type_of o)
  | None => None
  end.

Definition accepted (op : Operation) (U1 U2 : Unit n) : bool :=
  match result_type op U1 U2 with Some _ => true | None => false end.

(** The named constructors: static members of the class template. *)
Inductive Named : Type := NZero | NNan | NInfP | NInfN | NInf | NPi.

(** [Scalar<U>::c()]: every static member is declared in the body of the
    template, for whatever [U1] it is instantiated at. *)
Definition named (c : Named) (U : Unit n) : option (Scalar U) :=
  match c with
  | NZero => Some (Scalar.zero U)
  | NNan => Some (Scalar.nan U)
  | NInfP => Some (Scalar.infP U)
  | NInfN => Some (Scalar.infN U)
  | NInf => Some (Scalar.inf0 U)
  | NPi => Some (Scalar.pi U)
  end.

End Typing.

End Overload.

(* ================================================================== *)
(** ** Notions used in the statements *)

Module Range.

(** The magnitude [|x|] of a double. *)
Definition magnitude (x : Double.T) : Double.T := SFabs x.

(** [2^-511] and [2^512]: a double [x] with [lo <= |x| < hi] has a square
    that is a normal double, neither overflowing nor underflowing. *)
Definition lo : Double.T := S754_finite false 4503599627370496 (-563).
Definition hi : Double.T := S754_finite false 4503599627370496 460.

(** The doubles whose square is computed without overflow or underflow,
    together with the zeros and infinities, whose squares are exact. *)
Definition square_safe (x : Double.T) : bool :=
  match x with
  | S754_nan => false
  | S754_zero _ | S754_infinity _ => true
  | S754_finite _ _ _ =>
      Double.le lo (magnitude x) && Double.lt (magnitude x) hi
  end.

(** After [k] steps of [shr_1] from the exact mantissa [x] the record holds
    the quotient of [x] by [2^k], the next bit below it, and whether
    anything is left below that bit. *)
Definition shifted (x k : Z) (mrs : shr_record) : Prop :=
  let t := 2 * x - (2 * shr_m mrs + Z.b2z (shr_r mrs)) * 2 ^ k in
  0 <= shr_m mrs /\ 0 <= t < 2 ^ k /\ shr_s mrs = negb (t =? 0).

End Range.

(* ================================================================== *)
(** * Properties *)

(** ** The unit algebra *)

Section UnitAlgebra.

Context {n : nat}.
Implicit Types U : Unit n.

Lemma SIUnitAdd_dimensionless U : SIUnitAdd U dimensionless = U.
Proof.
  apply vec_eq; intros i. unfold SIUnitAdd, dimensionless.
  rewrite vlookup_zip_with, vlookup_replicate. lia.
Qed.

Lemma SIUnitSub_dimensionless U : SIUnitSub U dimensionless = U.
Proof.
  apply vec_eq; intros i. unfold SIUnitSub, dimensionless.
  rewrite vlookup_zip_with, vlookup_replicate. lia.
Qed.

Lemma SIUnitSub_diag U : SIUnitSub U U = dimensionless.
Proof.
  apply vec_eq; intros i. unfold SIUnitSub, dimensionless.
  rewrite vlookup_zip_with, vlookup_replicate. lia.
Qed.

Lemma SIUnitAdd_diag U : SIUnitAdd U U = SIUnitMul U 2.
Proof.
  apply vec_eq; intros i. unfold SIUnitAdd, SIUnitMul.
  rewrite vlookup_zip_with, vlookup_map. lia.
Qed.

Lemma divisible_SIUnitMul U k : k <> 0 -> divisible (SIUnitMul U k) k = true.
Proof.
  intros Hk. unfold divisible, SIUnitMul. rewrite vec_to_list_map.
  apply forallb_forall. intros e He. apply in_map_iff in He.
  destruct He as (e' & <- & _). apply Z.eqb_eq, Z_mod_mult.
Qed.

Lemma SIUnitDiv_SIUnitMul U k : k <> 0 -> SIUnitDiv (SIUnitMul U k) k = Some U.
Proof.
  intros Hk. unfold SIUnitDiv. rewrite divisible_SIUnitMul by assumption.
  f_equal. apply vec_eq; intros i. unfold SIUnitMul.
  rewrite !vlookup_map. apply Z_div_mult_full, Hk.
Qed.

Lemma SIUnitDiv_Some_SIUnitMul U U' k :
  SIUnitDiv U k = Some U' -> SIUnitMul U' k = U.
Proof.
  unfold SIUnitDiv. destruct (divisible U k) eqn:Hd; [|discriminate].
  intros [= <-]. apply vec_eq; intros i. unfold SIUnitMul.
  rewrite !vlookup_map.
  assert (Hx : forall x : Z, x mod k = 0 -> x / k * k = x).
  { intros x Hx. destruct (Z.eq_dec k 0) as [->|Hk].
    - rewrite Z.mod_0_r in Hx. lia.
    - pose proof (Z_div_mod_eq_full x k). lia. }
  apply Hx, Z.eqb_eq.
  unfold divisible in Hd. rewrite forallb_forall in Hd.
  apply Hd, list_elem_of_In, elem_of_vlookup. eauto.
Qed.

Lemma as_unit_same U (x : Scalar U) : Scalar.as_unit U x = Some x.
Proof.
  unfold Scalar.as_unit. destruct (decide (U = U)) as [e|ne]; [|congruence].
  f_equal. rewrite (proof_irrel e eq_refl). reflexivity.
Qed.

Lemma as_unit_value U U' (x : Scalar U) (x' : Scalar U') :
  Scalar.as_unit U' x = Some x' -> U = U' /\ value x' = value x.
Proof.
  unfold Scalar.as_unit. destruct (decide (U = U')) as [e|ne]; [|discriminate].
  intros [= <-]. split; [assumption|]. destruct e. reflexivity.
Qed.

Lemma as_unit_eq U U' (x : Scalar U) :
  U = U' -> Scalar.as_unit U' x = Some (mk U' (value x)).
Proof. intros <-. rewrite as_unit_same. destruct x. reflexivity. Qed.

Lemma as_unit_neq U U' (x : Scalar U) : U <> U' -> Scalar.as_unit U' x = None.
Proof.
  intros Hne. unfold Scalar.as_unit.
  destruct (decide (U = U')); [contradiction|reflexivity].
Qed.

End UnitAlgebra.

(** ** Comparisons of [double] *)

Section DoubleOrder.

Implicit Types x y : Double.T.

Lemma of_int_0 : Double.of_int 0 = S754_zero false.
Proof. reflexivity. Qed.

Lemma SFcompare_nan_r x : SFcompare x S754_nan = None.
Proof. destruct x; reflexivity. Qed.

Lemma SFcompare_nan_l y : SFcompare S754_nan y = None.
Proof. reflexivity. Qed.

Lemma SFcompare_refl x : x <> S754_nan -> SFcompare x x = Some Eq.
Proof.
  destruct x as [s|s| |s m e]; intros Hx; try congruence.
  - reflexivity.
  - destruct s; reflexivity.
  - simpl. rewrite Z.compare_refl.
    change (Pos.compare_cont Eq m m) with (Pos.compare m m).
    rewrite Pos.compare_refl. destruct s; reflexivity.
Qed.

Lemma ne_self_iff_nan x : Double.ne x x = true <-> x = S754_nan.
Proof.
  unfold Double.ne, SFeqb. split.
  - intros H. destruct x as [s|s| |s m e]; try reflexivity;
      rewrite SFcompare_refl in H by discriminate; discriminate.
  - intros ->. reflexivity.
Qed.

Lemma ge_0_not_lt x :
  Double.ge x (Double.of_int 0) = true -> Double.lt x (Double.of_int 0) = false.
Proof.
  rewrite of_int_0. unfold Double.ge, Double.lt, SFleb, SFltb.
  destruct x as [s|s| |s m e]; simpl; try destruct s; simpl; congruence.
Qed.

Lemma sign_trichotomy x :
  Double.lt x (Double.of_int 0) = true
  \/ Double.ge x (Double.of_int 0) = true
  \/ x = S754_nan.
Proof.
  rewrite of_int_0. unfold Double.ge, Double.lt, SFleb, SFltb.
  destruct x as [s|s| |s m e]; simpl; try destruct s; simpl; auto.
Qed.

Lemma eq_0_iff_zero x :
  Double.eq x (Double.of_int 0) = true <-> exists s, x = S754_zero s.
Proof.
  rewrite of_int_0. unfold Double.eq, SFeqb. split.
  - destruct x as [s|s| |s m e]; simpl; try destruct s; simpl;
      try discriminate; eauto.
  - intros [s ->]. reflexivity.
Qed.

End DoubleOrder.

(** ** Rounding to binary64 *)

Section Rounding.

Import Range.

(** *** Number of binary digits *)

Lemma digits2_pos_bounds (m : positive) :
  2 ^ (Zpos (digits2_pos m) - 1) <= Zpos m < 2 ^ Zpos (digits2_pos m).
Proof.
  induction m as [m IH|m IH|]; simpl digits2_pos.
  - rewrite Pos2Z.inj_succ. change (Zpos m~1) with (2 * Zpos m + 1).
    replace (Z.succ (Zpos (digits2_pos m)) - 1)
      with (Z.succ (Zpos (digits2_pos m) - 1)) by lia.
    rewrite !Z.pow_succ_r by lia. lia.
  - rewrite Pos2Z.inj_succ. change (Zpos m~0) with (2 * Zpos m).
    replace (Z.succ (Zpos (digits2_pos m)) - 1)
      with (Z.succ (Zpos (digits2_pos m) - 1)) by lia.
    rewrite !Z.pow_succ_r by lia. lia.
  - simpl. lia.
Qed.

Lemma digits2_pos_unique (m : positive) (d : Z) :
  2 ^ (d - 1) <= Zpos m < 2 ^ d -> Zpos (digits2_pos m) = d.
Proof.
  intros [Hlo Hhi]. pose proof (digits2_pos_bounds m) as [Hlo' Hhi'].
  set (d' := Zpos (digits2_pos m)) in *.
  assert (0 < d).
  { destruct (Z_lt_le_dec 0 d); [assumption|].
    assert (2 ^ d <= 2 ^ 0) by (apply Z.pow_le_mono_r; lia). simpl in *. lia. }
  destruct (Z_lt_le_dec d d') as [Hlt|Hge].
  - assert (2 ^ d <= 2 ^ (d' - 1)) by (apply Z.pow_le_mono_r; lia). lia.
  - destruct (Z_lt_le_dec d' d) as [Hlt|Hge'].
    + assert (2 ^ d' <= 2 ^ (d - 1)) by (apply Z.pow_le_mono_r; lia). lia.
    + lia.
Qed.

(** *** Shifting right with a round bit and a sticky bit *)

Lemma shifted_init x : 0 <= x -> shifted x 0 (Build_shr_record x false false).
Proof. intros Hx. unfold shifted; simpl. replace (2 * x - (2 * x + 0) * 1) with 0 by lia. repeat split; lia. Qed.

Lemma shr_1_spec mrs :
  0 <= shr_m mrs ->
  shr_m mrs = 2 * shr_m (shr_1 mrs) + Z.b2z (shr_r (shr_1 mrs))
  /\ 0 <= shr_m (shr_1 mrs)
  /\ shr_s (shr_1 mrs) = shr_r mrs || shr_s mrs.
Proof.
  destruct mrs as [[|[p|p|]|p] r s]; cbn [shr_m]; intros Hm;
    try lia; repeat split; cbn; lia.
Qed.

Lemma shifted_step x k mrs :
  0 <= k -> shifted x k mrs -> shifted x (k + 1) (shr_1 mrs).
Proof.
  intros Hk (Hm & Ht & Hs). unfold shifted.
  destruct (shr_1_spec mrs Hm) as (Em & Hm' & Es).
  rewrite Es, Hs. clear Es Hs.
  rewrite Z.pow_add_r, Z.pow_1_r by lia.
  pose proof (Z.pow_pos_nonneg 2 k ltac:(lia) Hk) as HP.
  revert Ht. rewrite Em. clear Em.
  generalize (shr_m (shr_1 mrs)) (shr_r (shr_1 mrs)) (2 ^ k) HP Hm'.
  intros m' r' P HP' Hm'' Ht.
  split; [assumption|].
  destruct (shr_r mrs), r'; cbn [Z.b2z orb negb] in *.
  all: split; [nia|].
  all: try (symmetry; apply negb_true_iff, Z.eqb_neq; nia).
  all: f_equal; apply eq_true_iff_eq; rewrite !Z.eqb_eq; split; nia.
Qed.

Lemma shifted_iter x p : forall k mrs,
  0 <= k -> shifted x k mrs -> shifted x (k + Zpos p) (SpecFloat.iter_pos shr_1 p mrs).
Proof.
  induction p as [p IH|p IH|]; intros k mrs Hk H; simpl SpecFloat.iter_pos.
  - replace (k + Zpos p~1) with (k + 1 + Zpos p + Zpos p) by lia.
    apply IH; [lia|]. apply IH; [lia|]. apply shifted_step; assumption.
  - replace (k + Zpos p~0) with (k + Zpos p + Zpos p) by lia.
    apply IH; [lia|]. apply IH; assumption.
  - apply shifted_step; assumption.
Qed.

(** Rounding the shifted record to nearest leaves an error of at most half
    a unit. *)
Lemma shifted_round x k mrs :
  0 <= k -> shifted x k mrs ->
  let M := round_nearest_even (shr_m mrs) (loc_of_shr_record mrs) in
  0 <= M /\ Z.abs (2 * x - 2 * M * 2 ^ k) <= 2 ^ k.
Proof.
  intros Hk. destruct mrs as [m r s]. unfold shifted. cbn [shr_m shr_r shr_s].
  pose proof (Z.pow_pos_nonneg 2 k ltac:(lia) Hk) as HP.
  set (P := 2 ^ k) in *. clearbody P.
  intros (Hm & Ht & Hs).
  destruct r, s; cbn [loc_of_shr_record round_nearest_even Z.b2z] in *.
  - split; [lia|]. nia.
  - destruct (Z.even m); (split; [lia|]); symmetry in Hs; apply negb_false_iff, Z.eqb_eq in Hs; nia.
  - split; [lia|]. nia.
  - split; [lia|]. symmetry in Hs; apply negb_false_iff, Z.eqb_eq in Hs; nia.
Qed.

Lemma fexp_double z :
  fexp Double.prec Double.emax z = Z.max (z - 53) (-1074).
Proof. reflexivity. Qed.

Lemma shr_record_of_loc_m m l : shr_m (shr_record_of_loc m l) = m.
Proof. destruct l as [|[]]; reflexivity. Qed.

Lemma loc_of_shr_record_of_loc m l :
  loc_of_shr_record (shr_record_of_loc m l) = l.
Proof. destruct l as [|[]]; reflexivity. Qed.

(** A mantissa of 53 digits is not shifted. *)
Lemma shr_fexp_53 (p : positive) e l :
  2 ^ 52 <= Zpos p < 2 ^ 53 -> -1074 <= e ->
  shr_fexp Double.prec Double.emax (Zpos p) e l
  = (shr_record_of_loc (Zpos p) l, e).
Proof.
  intros Hp He. unfold shr_fexp. rewrite fexp_double.
  cbn [Zdigits2]. rewrite (digits2_pos_unique p 53) by (simpl; lia).
  replace (Z.max (53 + e - 53) (-1074) - e) with 0 by lia.
  reflexivity.
Qed.

(** Rounding a mantissa of 53 digits: no shift, the location alone
    decides. *)
Lemma binary_round_aux_53 sx (p : positive) e l :
  2 ^ 52 <= Zpos p < 2 ^ 53 -> -1074 <= e <= 971 ->
  round_nearest_even (Zpos p) l < 2 ^ 53 ->
  binary_round_aux Double.prec Double.emax sx (Zpos p) e l
  = S754_finite sx (Z.to_pos (round_nearest_even (Zpos p) l)) e.
Proof.
  intros Hp He HR. unfold binary_round_aux.
  rewrite shr_fexp_53 by lia.
  rewrite shr_record_of_loc_m, loc_of_shr_record_of_loc.
  assert (HR' : Zpos p <= round_nearest_even (Zpos p) l).
  { destruct l as [|[]]; cbn [round_nearest_even]; try lia.
    destruct (Z.even _); lia. }
  destruct (round_nearest_even (Zpos p) l) as [|R|R] eqn:ER; try lia.
  rewrite shr_fexp_53 by lia. cbn [shr_record_of_loc shr_m].
  replace (e <=? Double.emax - Double.prec) with true
    by (symmetry; apply Z.leb_le; change (Double.emax - Double.prec) with 971; lia).
  reflexivity.
Qed.

(** Rounding an exact mantissa of [53 + k] digits: [k] bits are shifted out
    and the result is within half a unit of the last place. *)
Lemma binary_round_aux_exact sx (px pk : positive) ex :
  2 ^ (52 + Zpos pk) <= Zpos px < 2 ^ (53 + Zpos pk) ->
  -1074 <= ex + Zpos pk <= 971 ->
  exists M : Z,
    2 ^ 52 <= M <= 2 ^ 53
    /\ Z.abs (2 * Zpos px - 2 * M * 2 ^ Zpos pk) <= 2 ^ Zpos pk
    /\ (M < 2 ^ 53 ->
        binary_round_aux Double.prec Double.emax sx (Zpos px) ex loc_Exact
        = S754_finite sx (Z.to_pos M) (ex + Zpos pk)).
Proof.
  intros Hx He.
  pose proof (shifted_iter (Zpos px) pk 0 _ ltac:(lia)
                (shifted_init (Zpos px) ltac:(lia))) as Hsh.
  rewrite Z.add_0_l in Hsh.
  set (mrs := SpecFloat.iter_pos shr_1 pk _) in Hsh.
  pose proof (shifted_round (Zpos px) (Zpos pk) mrs ltac:(lia) Hsh) as [HM0 HM].
  set (M := round_nearest_even _ _) in *.
  assert (Hfe : shr_fexp Double.prec Double.emax (Zpos px) ex loc_Exact
                = (mrs, ex + Zpos pk)).
  { unfold shr_fexp. rewrite fexp_double. cbn [Zdigits2].
    rewrite (digits2_pos_unique px (53 + Zpos pk))
      by (replace (53 + Zpos pk - 1) with (52 + Zpos pk) by lia; exact Hx).
    replace (Z.max (53 + Zpos pk + ex - 53) (-1074) - ex) with (Zpos pk) by lia.
    reflexivity. }
  assert (HMb : 2 ^ 52 <= M <= 2 ^ 53).
  { destruct Hsh as (Hm & Ht & _).
    rewrite !Z.pow_add_r in Hx by lia.
    pose proof (Z.pow_pos_nonneg 2 (Zpos pk) ltac:(lia) ltac:(lia)) as HP.
    revert Hx Ht HM. generalize (2 ^ Zpos pk) HP. intros P HP' Hx Ht HM.
    destruct (shr_r mrs); cbn [Z.b2z] in Ht; nia. }
  exists M. split; [exact HMb|]. split; [exact HM|].
  intros Hlt. unfold binary_round_aux. rewrite Hfe. fold M.
  destruct M as [|Mp|Mp] eqn:EM; try lia.
  rewrite shr_fexp_53 by lia. cbn [shr_record_of_loc shr_m].
  replace (ex + Zpos pk <=? Double.emax - Double.prec) with true
    by (symmetry; apply Z.leb_le; change (Double.emax - Double.prec) with 971; lia).
  reflexivity.
Qed.

(** The integer square root that [std::sqrt] starts from, for a mantissa of
    53 digits: [k] is 52 for an even exponent and 53 for an odd one. *)
Lemma SFsqrt_core_53 (Mp : positive) e k :
  2 ^ 52 <= Zpos Mp < 2 ^ 53 -> -1074 <= e -> k = 52 \/ k = 53 ->
  SFsqrt_core_binary Double.prec Double.emax (Zpos Mp) (2 * e + k)
  = let (q, r) := Z.sqrtrem (Zpos Mp * 2 ^ k) in
    (q, e, if r =? 0 then loc_Exact
           else loc_Inexact (if r <=? q then Lt else Gt)).
Proof.
  intros HM He Hk. unfold SFsqrt_core_binary. cbn [Zdigits2].
  rewrite (digits2_pos_unique Mp 53) by (simpl; lia).
  rewrite fexp_double, !Z.div2_div.
  replace (Z.min (Z.max ((53 + (2 * e + k) + 1) / 2 - 53) (-1074))
                 ((2 * e + k) / 2)) with e
    by (destruct Hk; subst k; Z.div_mod_to_equations; lia).
  replace (2 * e + k - 2 * e) with k by lia.
  destruct Hk; subst k; cbv iota; rewrite Z.shiftl_mul_pow2 by lia; reflexivity.
Qed.

Lemma sqrt_near_square (pm : positive) e (M k : Z) :
  2 ^ 52 <= Zpos pm < 2 ^ 53 -> -1074 <= e <= 971 ->
  (k = 52 /\ Zpos pm * Zpos pm < 2 ^ 105)
  \/ (k = 53 /\ 2 ^ 105 <= Zpos pm * Zpos pm) ->
  2 ^ 52 <= M < 2 ^ 53 ->
  Z.abs (2 * (Zpos pm * Zpos pm) - 2 * M * 2 ^ k) <= 2 ^ k ->
  Double.sqrt (S754_finite false (Z.to_pos M) (2 * e + k))
  = S754_finite false pm e.
Proof.
  intros Hm He Hk HM Hnear.
  destruct M as [|Mp|Mp]; try lia. cbn [Z.to_pos].
  unfold Double.sqrt, SFsqrt.
  rewrite SFsqrt_core_53 by (try lia; destruct Hk as [[-> _]|[-> _]]; auto).
  pose proof (Z.sqrtrem_spec (Zpos Mp * 2 ^ k)) as Hspec.
  destruct (Z.sqrtrem (Zpos Mp * 2 ^ k)) as [q r].
  assert (HN : 0 <= Zpos Mp * 2 ^ k) by (destruct Hk as [[-> _]|[-> _]]; lia).
  specialize (Hspec HN). destruct Hspec as [Hq Hr].
  set (m := Zpos pm) in *.
  assert (Hcase : (q = m /\ r <= q) \/ (q = m - 1 /\ q < r /\ 2 ^ 52 < m)).
  { destruct Hk as [[-> Hsq]|[-> Hsq]].
    - change (2 ^ 52) with 4503599627370496 in *.
      change (2 ^ 53) with 9007199254740992 in *.
      change (2 ^ 105) with 40564819207303340847894502572032 in *.
      destruct (Z_lt_le_dec (Zpos Mp * 4503599627370496) (m * m)) as [Hlt|Hge].
      + right. assert (q < m) by nia. assert (m - 1 <= q) by nia.
        assert (q = m - 1) by lia. subst q. repeat split; nia.
      + left. assert (m <= q) by nia. assert (q <= m) by nia.
        assert (q = m) by lia. subst q. split; [reflexivity|nia].
    - change (2 ^ 52) with 4503599627370496 in *.
      change (2 ^ 53) with 9007199254740992 in *.
      change (2 ^ 105) with 40564819207303340847894502572032 in *.
      assert (4503599627370496 < m) by nia.
      destruct (Z_lt_le_dec (Zpos Mp * 9007199254740992) (m * m)) as [Hlt|Hge].
      + right. assert (q < m) by nia. assert (m - 1 <= q) by nia.
        assert (q = m - 1) by lia. subst q. repeat split; nia.
      + left. assert (m <= q) by nia. assert (q <= m) by nia.
        assert (q = m) by lia. subst q. split; [reflexivity|nia]. }
  destruct q as [|qp|qp]; try lia.
  assert (HR : round_nearest_even (Zpos qp)
                 (if r =? 0 then loc_Exact
                  else loc_Inexact (if r <=? Zpos qp then Lt else Gt)) = m).
  { destruct Hcase as [[Hqm Hrq]|(Hqm & Hrq & _)].
    - destruct (Z.eqb_spec r 0); [exact Hqm|].
      destruct (Z.leb_spec r (Zpos qp)); [exact Hqm|lia].
    - destruct (Z.eqb_spec r 0); [lia|].
      destruct (Z.leb_spec r (Zpos qp)); [lia|].
      cbn [round_nearest_even]. lia. }
  rewrite binary_round_aux_53; rewrite ?HR; try lia.
  reflexivity.
Qed.

(** The square of a 53-bit mantissa, rounded: the mantissa [M] and the
    number [k] of bits dropped. *)
Lemma mul_self_rounded s (pm : positive) e :
  2 ^ 52 <= Zpos pm < 2 ^ 53 -> -563 <= e <= 459 ->
  exists (M : Z) (k : Z),
    ((k = 52 /\ Zpos pm * Zpos pm < 2 ^ 105)
     \/ (k = 53 /\ 2 ^ 105 <= Zpos pm * Zpos pm))
    /\ 2 ^ 52 <= M < 2 ^ 53
    /\ Z.abs (2 * (Zpos pm * Zpos pm) - 2 * M * 2 ^ k) <= 2 ^ k
    /\ Double.mul (S754_finite s pm e) (S754_finite s pm e)
       = S754_finite false (Z.to_pos M) (2 * e + k).
Proof.
  intros Hm He. unfold Double.mul, SFmul. rewrite xorb_nilpotent.
  rewrite Pos2Z.inj_mul. replace (e + e) with (2 * e) by lia.
  destruct (Z_lt_le_dec (Zpos pm * Zpos pm) (2 ^ 105)) as [Hsq|Hsq].
  - destruct (binary_round_aux_exact false (pm * pm) 52 (2 * e))
      as (M & HMb & HM & Heq).
    { rewrite Pos2Z.inj_mul. change (2 ^ (52 + 52)) with (2 ^ 104).
      change (2 ^ (53 + 52)) with (2 ^ 105). split; [nia|lia]. }
    { lia. }
    rewrite Pos2Z.inj_mul in *.
    assert (Hc : Zpos pm <= 6369051672525772) by nia.
    assert (Hc2 : Zpos pm * Zpos pm <= 6369051672525772 * 6369051672525772)
      by (apply Z.mul_le_mono_nonneg; lia).
    assert (HM' : M < 2 ^ 53) by lia.
    exists M, 52. split; [left; split; [reflexivity|exact Hsq]|].
    split; [lia|]. split; [exact HM|]. apply Heq, HM'.
  - destruct (binary_round_aux_exact false (pm * pm) 53 (2 * e))
      as (M & HMb & HM & Heq).
    { rewrite Pos2Z.inj_mul. change (2 ^ (52 + 53)) with (2 ^ 105).
      change (2 ^ (53 + 53)) with (2 ^ 106). split; [lia|nia]. }
    { lia. }
    rewrite Pos2Z.inj_mul in *.
    assert (Hc2 : Zpos pm * Zpos pm <= (2 ^ 53 - 1) * (2 ^ 53 - 1))
      by (apply Z.mul_le_mono_nonneg; lia).
    assert (HM' : M < 2 ^ 53) by lia.
    exists M, 53. split; [right; split; [reflexivity|exact Hsq]|].
    split; [lia|]. split; [exact HM|]. apply Heq, HM'.
Qed.

End Rounding.

(** ** Division of a double by itself *)

Section SelfDivision.

Lemma div_eucl_div_mod a b : Z.div_eucl a b = (a / b, a mod b).
Proof. unfold Z.div, Z.modulo. destruct (Z.div_eucl a b); reflexivity. Qed.

Lemma SFdiv_core_self m e :
  SFdiv_core_binary Double.prec Double.emax (Zpos m) e (Zpos m) e
  = (2 ^ 53, -53, loc_Exact).
Proof.
  unfold SFdiv_core_binary.
  rewrite !Z.sub_diag.
  change (Z.min (fexp Double.prec Double.emax 0) 0) with (-53).
  change (0 - -53) with 53.
  cbv iota beta zeta.
  rewrite div_eucl_div_mod, Z.shiftl_mul_pow2 by lia.
  rewrite Z.mul_comm, Z_div_mult_full, Z_mod_mult by lia.
  unfold new_location, new_location_even, new_location_odd.
  destruct (Z.even (Zpos m)); reflexivity.
Qed.

Lemma div_self s m e :
  Double.div (S754_finite s m e) (S754_finite s m e) = Double.of_int 1.
Proof.
  unfold Double.div, SFdiv. rewrite SFdiv_core_self.
  rewrite xorb_nilpotent. vm_compute. reflexivity.
Qed.

End SelfDivision.

(** ** Claims *)

Section Claims.

Context {n : nat}.
Implicit Types U : Unit n.

Import Overload.

(** C9. A default-constructed [Scalar<U>()] has magnitude 0 (positive
    zero): it compares equal to [Scalar<U>::zero()] and [isZero()] returns
    true. *)
Theorem default_is_zero U :
  value (Scalar.default U) = S754_zero false
  /\ Scalar.default U = Scalar.zero U
  /\ Scalar.eq (Scalar.default U) (Scalar.zero U) = true
  /\ Scalar.isZero (Scalar.default U) = true.
Proof. repeat split. Qed.

(** C10. [isZero()] is exact comparison with 0, and negative zero compares
    equal to 0: [Scalar<U>(-0.0).isZero()] is true and the boolean
    conversion of [Scalar<U>(-0.0)] is false.  In general [isZero()] holds
    exactly for the two zeros and the boolean conversion is its negation. *)
Theorem isZero_negative_zero U :
  let neg0 := mk U (Double.opp (Double.of_int 0)) in
  value neg0 = S754_zero true
  /\ Scalar.isZero neg0 = true
  /\ Scalar.to_bool neg0 = false
  /\ Scalar.not neg0 = true
  /\ (forall x : Scalar U,
        (Scalar.isZero x = true <-> exists s, value x = S754_zero s)
        /\ Scalar.to_bool x = negb (Scalar.isZero x)).
Proof.
  repeat split; try reflexivity.
  - apply eq_0_iff_zero.
  - apply eq_0_iff_zero.
  - unfold Scalar.to_bool, Scalar.isZero, Double.to_bool, Double.ne, Double.eq.
    destruct (SFeqb _ _); reflexivity.
Qed.

(** C6. [nan().isNaN()] is true; [nan() == nan()] is false; [<], [>], [<=],
    [>=] and [==] with a NaN operand on either side are false and [!=] is
    true; [isNaN()] is the test [value != value], which holds exactly for
    NaN. *)
Theorem nan_comparisons U :
  Scalar.isNaN (Scalar.nan U) = true
  /\ Scalar.eq (Scalar.nan U) (Scalar.nan U) = false
  /\ (forall x : Scalar U,
        Scalar.lt (Scalar.nan U) x = false /\ Scalar.lt x (Scalar.nan U) = false
        /\ Scalar.gt (Scalar.nan U) x = false /\ Scalar.gt x (Scalar.nan U) = false
        /\ Scalar.le (Scalar.nan U) x = false /\ Scalar.le x (Scalar.nan U) = false
        /\ Scalar.ge (Scalar.nan U) x = false /\ Scalar.ge x (Scalar.nan U) = false
        /\ Scalar.eq (Scalar.nan U) x = false /\ Scalar.eq x (Scalar.nan U) = false
        /\ Scalar.ne (Scalar.nan U) x = true /\ Scalar.ne x (Scalar.nan U) = true)
  /\ (forall x : Scalar U,
        Scalar.isNaN x = Scalar.ne x x
        /\ (Scalar.isNaN x = true <-> value x = S754_nan)).
Proof.
  split; [reflexivity|]. split; [reflexivity|]. split.
  - intros [v].
    unfold Scalar.lt, Scalar.gt, Scalar.le, Scalar.ge, Scalar.eq, Scalar.ne,
      Double.lt, Double.gt, Double.le, Double.ge, Double.eq, Double.ne,
      SFltb, SFleb, SFeqb; simpl.
    rewrite !SFcompare_nan_r. repeat split.
  - intros x. split; [reflexivity|]. apply ne_self_iff_nan.
Qed.

(** C5, amended. [inf(dir)] is [infN()] when [dir < 0] and [infP()] in every
    other case: when [dir >= 0] (either zero included) and also when [dir]
    is NaN, which is neither; so [inf(-5)] is [infN()], [inf(0)] and
    [inf(5)] are [infP()]. *)
Theorem inf_sign_dispatch U (dir : Scalar U) :
  (Scalar.lt dir (Scalar.zero U) = true -> Scalar.inf dir = Scalar.infN U)
  /\ (Scalar.ge dir (Scalar.zero U) = true -> Scalar.inf dir = Scalar.infP U)
  /\ (Scalar.isNaN dir = true -> Scalar.inf dir = Scalar.infP U)
  /\ (Scalar.lt dir (Scalar.zero U) = true
      \/ Scalar.ge dir (Scalar.zero U) = true
      \/ Scalar.isNaN dir = true)
  /\ Scalar.inf (mk U (Double.of_int (-5))) = Scalar.infN U
  /\ Scalar.inf (mk U (Double.of_int 0)) = Scalar.infP U
  /\ Scalar.inf (mk U (Double.opp (Double.of_int 0))) = Scalar.infP U
  /\ Scalar.inf (mk U (Double.of_int 5)) = Scalar.infP U.
Proof.
  destruct dir as [v].
  unfold Scalar.lt, Scalar.ge, Scalar.isNaN, Scalar.inf, Scalar.zero; cbn [value].
  repeat split; try reflexivity.
  - intros ->. reflexivity.
  - intros H. rewrite (ge_0_not_lt _ H). reflexivity.
  - intros H. apply ne_self_iff_nan in H. subst v. reflexivity.
  - destruct (sign_trichotomy v) as [H|[H|H]]; auto.
    right; right. apply ne_self_iff_nan, H.
Qed.

(** C8, amended. [pi()] is a static member of every [Scalar<U>], whatever
    the unit; its magnitude is the double nearest to the decimal constant
    of the source, 7074237752028440 * 2^-51, which is within 10^-15 of
    3.14159265358979323846. *)
Theorem pi_value U :
  named NPi U = Some (Scalar.pi U)
  /\ value (Scalar.pi U) = S754_finite false 7074237752028440 (-51)
  /\ Double.valid (value (Scalar.pi U)) = true
  /\ (2 * 7074237752028440 - 1) * Zpos Scalar.pi_den
       < Zpos Scalar.pi_num * 2 ^ 52
       < (2 * 7074237752028440 + 1) * Zpos Scalar.pi_den
  /\ Z.abs (7074237752028440 * 10 ^ 20 - 314159265358979323846 * 2 ^ 51)
       * 10 ^ 15 < 10 ^ 20 * 2 ^ 51.
Proof.
  split; [reflexivity|].
  split; [vm_compute; reflexivity|].
  split; [vm_compute; reflexivity|].
  split; [split; vm_compute; reflexivity|].
  vm_compute; reflexivity.
Qed.

(** C2. For all units [U1], [U2] and all doubles [a], [b] (finite or not),
    [Scalar<U1>(a) * Scalar<U2>(b)] is well-formed, has unit
    [SIUnitAdd(U1, U2)] and has the magnitude [a * b]. *)
Theorem mul_closure U1 U2 (a b : Double.T) :
  result_type OpMul U1 U2 = Some (TScalar (SIUnitAdd U1 U2))
  /\ Scalar.unit_of (Scalar.mul (mk U1 a) (mk U2 b)) = SIUnitAdd U1 U2
  /\ value (Scalar.mul (mk U1 a) (mk U2 b)) = Double.mul a b.
Proof. repeat split. Qed.

(** C1, amended. For distinct units [U1], [U2], every comparison, [+], [-],
    [+=], [-=] and [mod] between a [Scalar<U1>] and a [Scalar<U2>] is
    ill-formed and never executes: a [Scalar<U2>] cannot be passed where
    the member asks for a [Scalar<U1>].  Of the members of [Scalar] that
    take a second scalar, those that accept one of a different unit are [*]
    and [/], for any two units, and [*=] and [/=], for a dimensionless
    right operand only; besides them, the logical operators [&&] and [||]
    of the language accept scalars of any two units, through the boolean
    conversion. *)
Theorem unit_soundness U1 U2 :
  U1 <> U2 ->
  (forall op (x : Scalar U1) (t : Scalar U2),
     In op [OpLt; OpGt; OpLe; OpGe; OpEq; OpNe; OpAdd; OpSub; OpMod;
            OpAddAssign; OpSubAssign] ->
     binary op x t = None)
  /\ (forall t : Scalar U2, Scalar.as_unit U1 t = None)
  /\ (forall op (x : Scalar U1) (t : Scalar U2),
       binary op x t <> None ->
       op = OpMul \/ op = OpDiv
       \/ ((op = OpMulAssign \/ op = OpDivAssign) /\ U2 = dimensionless)
       \/ op = OpAnd \/ op = OpOr)
  /\ (forall (x : Scalar U1) (t : Scalar U2),
       binary OpMul x t = Some (OScalar (SIUnitAdd U1 U2) (Scalar.mul x t))
       /\ binary OpDiv x t
          = Some (OScalar (SIUnitSub U1 U2) (Scalar.div x t))
       /\ binary OpAnd x t
          = Some (OBool (Scalar.to_bool x && Scalar.to_bool t))
       /\ binary OpOr x t
          = Some (OBool (Scalar.to_bool x || Scalar.to_bool t)))
  /\ (U2 = dimensionless ->
      forall (x : Scalar U1) (t : Scalar U2),
        binary OpMulAssign x t
        = Some (OScalar U1 (mk U1 (Double.mul (value x) (value t))))
        /\ binary OpDivAssign x t
           = Some (OScalar U1 (mk U1 (Double.div (value x) (value t))))).
Proof.
  intros Hne.
  assert (Hcast : forall t : Scalar U2, Scalar.as_unit U1 t = None)
    by (intros t; apply as_unit_neq; congruence).
  split; [|split; [exact Hcast|split; [|split]]].
  - intros op x t Hop. cbn [In] in Hop.
    repeat (destruct Hop as [<-|Hop];
            [cbn [binary]; rewrite Hcast; reflexivity|]).
    contradiction.
  - intros op x t.
    destruct op; cbn [binary]; rewrite ?Hcast; try congruence; auto 10.
    + destruct (Scalar.as_unit dimensionless t) as [t'|] eqn:Ht;
        [|congruence].
      apply as_unit_value in Ht as [-> _]. auto 10.
    + destruct (Scalar.as_unit dimensionless t) as [t'|] eqn:Ht;
        [|congruence].
      apply as_unit_value in Ht as [-> _]. auto 10.
  - intros x t. repeat split.
  - intros -> x t. cbn [binary]. rewrite !as_unit_same.
    unfold Scalar.mul_assign, Scalar.div_assign.
    rewrite (as_unit_eq _ _ (Scalar.mul x t) (SIUnitAdd_dimensionless U1)).
    rewrite (as_unit_eq _ _ (Scalar.div x t) (SIUnitSub_dimensionless U1)).
    split; reflexivity.
Qed.

End Claims.

(** C5 as stated fails on a NaN direction: [dir >= 0] is false, yet the
    result is [infP()], not [infN()]. *)
Lemma inf_nan_counterexample :
  let dir := Scalar.nan length_unit in
  Scalar.ge dir (Scalar.zero length_unit) = false
  /\ Scalar.inf dir = Scalar.infP length_unit
  /\ Scalar.inf dir <> Scalar.infN length_unit.
Proof. repeat split. discriminate. Qed.

Lemma inf_sign_dispatch_witness :
  Scalar.lt (mk length_unit (Double.of_int (-5))) (Scalar.zero length_unit)
    = true
  /\ Scalar.inf (mk length_unit (Double.of_int (-5)))
     = Scalar.infN length_unit.
Proof.
  split; [reflexivity|].
  apply (proj1 (inf_sign_dispatch length_unit
                  (mk length_unit (Double.of_int (-5))))).
  reflexivity.
Defined.

(** C8 as stated fails at the unit of length: [Scalar<L>::pi()] exists. *)
Lemma pi_counterexample :
  Overload.named Overload.NPi length_unit = Some (Scalar.pi length_unit)
  /\ length_unit <> dimensionless.
Proof. split; [reflexivity|discriminate]. Qed.

(** C1 as stated fails for [&&]: a length and a time, of different units,
    are accepted together by the logical operator, which is neither [*]
    nor [/], and the expression is evaluated. *)
Lemma mixed_units_counterexample :
  length_unit <> time_unit
  /\ Overload.binary Overload.OpAnd
       (mk length_unit (Double.of_int 1)) (mk time_unit (Double.of_int 2))
     = Some (Overload.OBool true)
  /\ Overload.OpAnd <> Overload.OpMul
  /\ Overload.OpAnd <> Overload.OpDiv.
Proof. repeat split; discriminate. Qed.

Lemma unit_soundness_witness :
  length_unit <> time_unit
  /\ Overload.binary Overload.OpAdd
       (mk length_unit (Double.of_int 1)) (mk time_unit (Double.of_int 2))
     = None.
Proof.
  assert (H : length_unit <> time_unit) by discriminate.
  split; [exact H|].
  apply (proj1 (unit_soundness length_unit time_unit H)).
  simpl. auto 10.
Defined.

(* ================================================================== *)
(** * Further properties of the members *)

(** ** More of the unit algebra *)

Section MoreUnitAlgebra.

Context {n : nat}.
Implicit Types U : Unit n.

Lemma SIUnitAdd_comm U1 U2 : SIUnitAdd U1 U2 = SIUnitAdd U2 U1.
Proof.
  apply vec_eq; intros i. unfold SIUnitAdd.
  rewrite !vlookup_zip_with. lia.
Qed.

Lemma SIUnitAdd_SIUnitSub U1 U2 : SIUnitAdd (SIUnitSub U1 U2) U2 = U1.
Proof.
  apply vec_eq; intros i. unfold SIUnitAdd, SIUnitSub.
  rewrite !vlookup_zip_with. lia.
Qed.

Lemma SIUnitSub_SIUnitAdd U1 U2 : SIUnitSub (SIUnitAdd U1 U2) U2 = U1.
Proof.
  apply vec_eq; intros i. unfold SIUnitAdd, SIUnitSub.
  rewrite !vlookup_zip_with. lia.
Qed.

Lemma SIUnitDiv_None U k : SIUnitDiv U k = None <-> divisible U k = false.
Proof. unfold SIUnitDiv. destruct (divisible U k); split; congruence. Qed.

(** What [sqrt] computes, type check included. *)
Lemma sqrt_value U (x : Scalar U) :
  sqrt x = match SIUnitDiv U 2 with
           | Some U' => Some (pack (mk U' (Double.sqrt (value x))))
           | None => None
           end.
Proof.
  unfold sqrt. destruct (SIUnitDiv U 2) as [U'|] eqn:HU; [|reflexivity].
  apply SIUnitDiv_Some_SIUnitMul in HU.
  rewrite (as_unit_eq _ _ x (eq_sym HU)). reflexivity.
Qed.

End MoreUnitAlgebra.

(** ** The square root of a square *)

Section RoundTrip.

Import Range.

Lemma sqrt_mul_self s (pm : positive) e :
  2 ^ 52 <= Zpos pm < 2 ^ 53 -> -563 <= e <= 459 ->
  Double.sqrt (Double.mul (S754_finite s pm e) (S754_finite s pm e))
  = S754_finite false pm e.
Proof.
  intros Hm He.
  destruct (mul_self_rounded s pm e Hm He) as (M & k & Hk & HM & Hnear & ->).
  apply sqrt_near_square; try assumption. lia.
Qed.

Lemma SFcompare_finite_pos m1 e1 m2 e2 :
  SFcompare (S754_finite false m1 e1) (S754_finite false m2 e2)
  = Some (match Z.compare e1 e2 with
          | Lt => Lt | Gt => Gt | Eq => Pos.compare m1 m2 end).
Proof. reflexivity. Qed.

Lemma le_lo_finite s m e :
  Double.le lo (magnitude (S754_finite s m e)) = true ->
  -563 < e \/ (e = -563 /\ 2 ^ 52 <= Zpos m).
Proof.
  unfold Double.le, SFleb, lo, magnitude, SFabs.
  rewrite SFcompare_finite_pos.
  destruct (Z.compare_spec (-563) e) as [E|E|E]; try discriminate.
  - rewrite Pos2Z.inj_compare.
    destruct (Z.compare_spec 4503599627370496 (Zpos m)); try discriminate;
      intros _; right; split; try lia.
    all: change (2 ^ 52) with 4503599627370496; lia.
  - intros _. left. exact E.
Qed.

Lemma lt_hi_finite s m e :
  Double.lt (magnitude (S754_finite s m e)) hi = true ->
  e < 460 \/ (e = 460 /\ Zpos m < 2 ^ 52).
Proof.
  unfold Double.lt, SFltb, hi, magnitude, SFabs.
  rewrite SFcompare_finite_pos.
  destruct (Z.compare_spec e 460) as [E|E|E]; try discriminate.
  - rewrite Pos2Z.inj_compare.
    destruct (Z.compare_spec (Zpos m) 4503599627370496); try discriminate;
      intros _; right; split; try lia.
    all: change (2 ^ 52) with 4503599627370496; lia.
  - intros _. left. exact E.
Qed.

(** A valid double in the safe range is normal, with its exponent well
    inside the range of the format. *)
Lemma square_safe_normal s (m : positive) e :
  Double.valid (S754_finite s m e) = true ->
  square_safe (S754_finite s m e) = true ->
  2 ^ 52 <= Zpos m < 2 ^ 53 /\ -563 <= e <= 459.
Proof.
  unfold Double.valid, valid_binary, bounded, canonical_mantissa.
  rewrite fexp_double. intros Hv Hr.
  apply andb_true_iff in Hv as [Hc _]. apply Z.eqb_eq in Hc.
  pose proof (digits2_pos_bounds m) as Hd.
  cbv beta iota delta [square_safe] in Hr.
  apply andb_true_iff in Hr as [Hlo Hhi].
  apply le_lo_finite in Hlo. apply lt_hi_finite in Hhi.
  assert (Hdig : Zpos (digits2_pos m) = 53) by lia.
  rewrite Hdig in Hd. change (2 ^ (53 - 1)) with (2 ^ 52) in Hd.
  lia.
Qed.

Lemma sqrt_mul_self_safe (a : Double.T) :
  Double.valid a = true -> square_safe a = true ->
  Double.sqrt (Double.mul a a) = magnitude a.
Proof.
  intros Hv Hr. destruct a as [s|s| |s m e]; try discriminate.
  - destruct s; reflexivity.
  - destruct s; reflexivity.
  - destruct (square_safe_normal s m e Hv Hr) as [Hm He].
    apply sqrt_mul_self; assumption.
Qed.

Lemma magnitude_eq_ge (x : Double.T) :
  x <> S754_nan ->
  Double.eq (magnitude x) x = Double.ge x (Double.of_int 0).
Proof.
  rewrite of_int_0. unfold Double.ge, Double.eq, SFleb, SFeqb, magnitude.
  destruct x as [s|s| |s m e]; try congruence; intros _;
    try (destruct s; reflexivity).
  destruct s; cbn [SFabs]; [reflexivity|].
  rewrite SFcompare_refl by discriminate. reflexivity.
Qed.

End RoundTrip.

(** ** The sign of a rounded result *)

Section Remainder.

Lemma shr_1_iter_nonneg p : forall mrs,
  0 <= shr_m mrs -> 0 <= shr_m (SpecFloat.iter_pos shr_1 p mrs).
Proof.
  assert (H1 : forall mrs, 0 <= shr_m mrs -> 0 <= shr_m (shr_1 mrs)).
  { intros mrs H. apply (shr_1_spec mrs H). }
  induction p as [p IH|p IH|]; intros mrs H; simpl SpecFloat.iter_pos; auto.
Qed.

Lemma shr_fexp_nonneg m e l :
  0 <= m -> 0 <= shr_m (fst (shr_fexp Double.prec Double.emax m e l)).
Proof.
  intros Hm. unfold shr_fexp, shr.
  assert (H0 : 0 <= shr_m (shr_record_of_loc m l))
    by (rewrite shr_record_of_loc_m; exact Hm).
  destruct (fexp _ _ _ - e); cbn [fst]; auto using shr_1_iter_nonneg.
Qed.

Lemma round_nearest_even_nonneg m l : 0 <= m -> 0 <= round_nearest_even m l.
Proof.
  intros Hm. destruct l as [|[]]; cbn [round_nearest_even]; try lia.
  destruct (Z.even m); lia.
Qed.

(** Rounding a non-negative mantissa gives a number (never NaN) with the
    sign that was asked for. *)
Lemma binary_round_aux_sign sx mx ex lx :
  0 <= mx ->
  Double.sign_of (binary_round_aux Double.prec Double.emax sx mx ex lx)
  = Some sx.
Proof.
  intros Hm. unfold binary_round_aux.
  pose proof (shr_fexp_nonneg mx ex lx Hm) as H1.
  destruct (shr_fexp _ _ mx ex lx) as [mrs' e']. cbn [fst] in H1.
  pose proof (shr_fexp_nonneg _ e' loc_Exact
                (round_nearest_even_nonneg _ (loc_of_shr_record mrs') H1)) as H2.
  destruct (shr_fexp _ _ _ e' loc_Exact) as [mrs'' e'']. cbn [fst] in H2.
  destruct (shr_m mrs''); try lia; try reflexivity.
  destruct (e'' <=? _); reflexivity.
Qed.

Lemma binary_round_sign sx mx ex :
  Double.sign_of (binary_round Double.prec Double.emax sx mx ex) = Some sx.
Proof.
  unfold binary_round. destruct (shl_align _ _ _) as [mz ez].
  apply binary_round_aux_sign. lia.
Qed.

(** The remainder has the sign of the dividend, whenever it is a number. *)
Lemma fmod_sign (x y : Double.T) :
  Double.is_finite x = true ->
  Double.eq y (Double.of_int 0) = false -> Double.ne y y = false ->
  Double.sign_of (Double.fmod x y) = Double.sign_of x.
Proof.
  intros Hx Hy0 Hyn.
  destruct x as [sx|sx| |sx mx ex]; try discriminate;
    destruct y as [sy|sy| |sy my ey]; try discriminate; try reflexivity.
  unfold Double.fmod. cbv zeta.
  set (X := fst (shl_align mx ex (Z.min ex ey))).
  set (Y := fst (shl_align my ey (Z.min ex ey))).
  assert (Hr : 0 <= Z.rem (Zpos X) (Zpos Y)) by (apply Z.rem_nonneg; lia).
  destruct (Z.rem (Zpos X) (Zpos Y)) as [|r|r]; try lia.
  - destruct sx; reflexivity.
  - destruct sx; cbn [cond_Zopp Z.opp binary_normalize];
      apply binary_round_sign.
Qed.

End Remainder.

(** ** Laws of the arithmetic on [double] *)

Section DoubleAlgebra.

Implicit Types x y : Double.T.

Lemma compare_cont_Eq (p q : positive) :
  Pos.compare_cont Eq p q = Pos.compare p q.
Proof. reflexivity. Qed.

(** Swapping the operands of a comparison reverses its outcome. *)
Lemma SFcompare_swap x y :
  SFcompare y x = option_map CompOpp (SFcompare x y).
Proof.
  destruct x as [s1|s1| |s1 m1 e1], y as [s2|s2| |s2 m2 e2];
    try reflexivity; try (destruct s1, s2; reflexivity);
    try (destruct s1; reflexivity); try (destruct s2; reflexivity).
  cbn [SFcompare option_map]. rewrite !compare_cont_Eq.
  rewrite (Z.compare_antisym e1 e2), (Pos.compare_antisym m1 m2).
  destruct s1, s2; try reflexivity;
    destruct (e1 ?= e2); cbn [CompOpp]; try reflexivity;
    destruct (m1 ?= m2)%positive; reflexivity.
Qed.

(** Negating both operands reverses a comparison. *)
Lemma SFcompare_opp x y :
  SFcompare (SFopp x) (SFopp y) = SFcompare y x.
Proof.
  rewrite (SFcompare_swap x y).
  destruct x as [s1|s1| |s1 m1 e1], y as [s2|s2| |s2 m2 e2];
    try reflexivity; try (destruct s1, s2; reflexivity);
    try (destruct s1; reflexivity); try (destruct s2; reflexivity).
  cbn [SFcompare SFopp option_map]. rewrite !compare_cont_Eq.
  destruct s1, s2; cbn [negb]; try reflexivity;
    destruct (e1 ?= e2); cbn [CompOpp]; try reflexivity;
    destruct (m1 ?= m2)%positive; reflexivity.
Qed.

Lemma add_comm x y : Double.add x y = Double.add y x.
Proof.
  unfold Double.add.
  destruct x as [s1|s1| |s1 m1 e1], y as [s2|s2| |s2 m2 e2];
    try reflexivity; try (destruct s1, s2; reflexivity).
  cbn [SFadd]. rewrite (Z.min_comm e1 e2), Z.add_comm. reflexivity.
Qed.

Lemma mul_comm x y : Double.mul x y = Double.mul y x.
Proof.
  unfold Double.mul.
  destruct x as [s1|s1| |s1 m1 e1], y as [s2|s2| |s2 m2 e2];
    try reflexivity; try (destruct s1, s2; reflexivity).
  cbn [SFmul]. rewrite (xorb_comm s1 s2), (Pos.mul_comm m1 m2), (Z.add_comm e1 e2).
  reflexivity.
Qed.

Lemma sub_add_opp x y : Double.sub x y = Double.add x (Double.opp y).
Proof.
  unfold Double.sub, Double.add, Double.opp.
  destruct x as [s1|s1| |s1 m1 e1], y as [s2|s2| |s2 m2 e2];
    try reflexivity; destruct s1, s2; reflexivity.
Qed.

Lemma sub_diag_finite x :
  Double.is_finite x = true -> Double.sub x x = S754_zero false.
Proof.
  unfold Double.sub. destruct x as [s|s| |s m e]; try discriminate; intros _.
  - destruct s; reflexivity.
  - cbn [SFsub]. rewrite Z.sub_diag. reflexivity.
Qed.

Lemma add_zero_r x :
  x <> S754_nan -> Double.eq (Double.add x (Double.of_int 0)) x = true.
Proof.
  rewrite of_int_0. unfold Double.add, Double.eq, SFeqb. intros Hx.
  destruct x as [s|s| |s m e]; try congruence.
  - destruct s; reflexivity.
  - cbn [SFadd]. rewrite SFcompare_refl by discriminate. reflexivity.
  - cbn [SFadd]. rewrite SFcompare_refl by discriminate. reflexivity.
Qed.

(** The square of any double is a NaN or carries a clear sign bit. *)
Lemma mul_self_sign x :
  Double.mul x x = S754_nan \/ Double.sign_of (Double.mul x x) = Some false.
Proof.
  unfold Double.mul. destruct x as [s|s| |s m e]; cbn [SFmul].
  - right. rewrite xorb_nilpotent. reflexivity.
  - right. rewrite xorb_nilpotent. reflexivity.
  - left. reflexivity.
  - right. rewrite xorb_nilpotent. apply binary_round_aux_sign. lia.
Qed.

Lemma lt_0_sign x :
  Double.lt x (Double.of_int 0) = true -> Double.sign_of x = Some true.
Proof.
  rewrite of_int_0. unfold Double.lt, SFltb.
  destruct x as [s|s| |s m e]; cbn; try destruct s; cbn; congruence.
Qed.

Lemma sqrt_negative x :
  Double.lt x (Double.of_int 0) = true -> Double.sqrt x = S754_nan.
Proof.
  rewrite of_int_0. unfold Double.lt, SFltb, Double.sqrt.
  destruct x as [s|s| |s m e]; cbn; try destruct s; cbn; congruence.
Qed.

Lemma eq_infinity_iff x s :
  Double.eq x (S754_infinity s) = true <-> x = S754_infinity s.
Proof.
  unfold Double.eq, SFeqb. split.
  - destruct x as [s1|s1| |s1 m1 e1]; cbn; try destruct s1; destruct s; cbn;
      congruence.
  - intros ->. destruct s; reflexivity.
Qed.

Lemma ne_self (v : Double.T) :
  Double.ne v v = match v with S754_nan => true | _ => false end.
Proof.
  destruct v; try reflexivity; unfold Double.ne, SFeqb;
    rewrite SFcompare_refl by discriminate; reflexivity.
Qed.

Lemma binary_round_aux_opp sx mx ex lx :
  binary_round_aux Double.prec Double.emax (negb sx) mx ex lx
  = SFopp (binary_round_aux Double.prec Double.emax sx mx ex lx).
Proof.
  unfold binary_round_aux.
  destruct (shr_fexp _ _ mx ex lx) as [mrs' e'].
  destruct (shr_fexp _ _ _ e' loc_Exact) as [mrs'' e''].
  destruct (shr_m mrs''); try reflexivity.
  destruct (e'' <=? _); reflexivity.
Qed.

Lemma mul_opp_l (x y : Double.T) :
  Double.mul (Double.opp x) y = Double.opp (Double.mul x y).
Proof.
  unfold Double.mul, Double.opp.
  destruct x as [s1|s1| |s1 m1 e1], y as [s2|s2| |s2 m2 e2];
    cbn [SFmul SFopp]; try reflexivity;
    try (destruct s1, s2; reflexivity).
  rewrite <- binary_round_aux_opp. destruct s1, s2; reflexivity.
Qed.

Lemma div_opp_l (x y : Double.T) :
  Double.div (Double.opp x) y = Double.opp (Double.div x y).
Proof.
  unfold Double.div, Double.opp.
  destruct x as [s1|s1| |s1 m1 e1], y as [s2|s2| |s2 m2 e2];
    cbn [SFdiv SFopp]; try reflexivity;
    try (destruct s1, s2; reflexivity).
  destruct (SFdiv_core_binary _ _ _ _ _ _) as [[mz ez] lz].
  rewrite <- binary_round_aux_opp. destruct s1, s2; reflexivity.
Qed.

Lemma SFltb_finite_iff s1 m1 e1 s2 m2 e2 :
  SFltb (S754_finite s1 m1 e1) (S754_finite s2 m2 e2) = true <->
  match s1, s2 with
  | true, false => True
  | false, true => False
  | false, false => e1 < e2 \/ (e1 = e2 /\ Zpos m1 < Zpos m2)
  | true, true => e2 < e1 \/ (e1 = e2 /\ Zpos m2 < Zpos m1)
  end.
Proof.
  unfold SFltb. cbn [SFcompare]. rewrite !compare_cont_Eq.
  destruct s1, s2; try (split; [intros; exact I|reflexivity]);
    try (split; [discriminate|contradiction]).
  - destruct (Z.compare_spec e1 e2); [|split; [discriminate|lia]|split; [intros; lia|reflexivity]].
    rewrite Pos2Z.inj_compare.
    destruct (Z.compare_spec (Zpos m1) (Zpos m2)); cbn [CompOpp];
      split; try discriminate; try reflexivity; intros; lia.
  - destruct (Z.compare_spec e1 e2); [|split; [intros; lia|reflexivity]|split; [discriminate|lia]].
    rewrite Pos2Z.inj_compare.
    destruct (Z.compare_spec (Zpos m1) (Zpos m2));
      split; try discriminate; try reflexivity; intros; lia.
Qed.

Lemma lt_trans (x y z : Double.T) :
  Double.lt x y = true -> Double.lt y z = true -> Double.lt x z = true.
Proof.
  unfold Double.lt.
  destruct x as [s1|s1| |s1 m1 e1], y as [s2|s2| |s2 m2 e2],
    z as [s3|s3| |s3 m3 e3];
    try discriminate;
    try (destruct s1, s2, s3; (reflexivity || discriminate)).
  all: try (destruct s1, s2; (reflexivity || discriminate)).
  all: try (destruct s2, s3; (reflexivity || discriminate)).
  all: try (destruct s1, s3; (reflexivity || discriminate)).
  rewrite !SFltb_finite_iff.
  destruct s1, s2, s3; try tauto; intros; lia.
Qed.

End DoubleAlgebra.

(** ** Multiplication by one *)

Section MulOne.

Import Range.

Lemma of_int_1 : Double.of_int 1 = S754_finite false 4503599627370496 (-52).
Proof. reflexivity. Qed.

(** Shifting out the 52 zero bits that a multiplication by [2^52] added
    gives the mantissa back, exactly. *)
Lemma shr_52_exact (m : positive) :
  SpecFloat.iter_pos shr_1 52
    (Build_shr_record (Zpos (m * 4503599627370496)) false false)
  = Build_shr_record (Zpos m) false false.
Proof.
  pose proof (shifted_iter (Zpos (m * 4503599627370496)) 52 0 _ (Z.le_refl 0)
                (shifted_init _ (Pos2Z.is_nonneg _))) as H.
  destruct (SpecFloat.iter_pos shr_1 52 _) as [m' r s].
  unfold shifted in H. cbn [shr_m shr_r shr_s] in H.
  rewrite Pos2Z.inj_mul in H. change (2 ^ (0 + 52)) with 4503599627370496 in H.
  destruct H as (Hm & Ht & Hs).
  assert (Hr : r = false) by (destruct r; [cbn [Z.b2z] in Ht; lia|reflexivity]).
  subst r. cbn [Z.b2z] in *.
  assert (m' = Zpos m) by lia. subst m'.
  rewrite Hs. f_equal.
  apply negb_false_iff, Z.eqb_eq. lia.
Qed.

Lemma mul_one_r (x : Double.T) :
  Double.valid x = true -> Double.mul x (Double.of_int 1) = x.
Proof.
  rewrite of_int_1. unfold Double.mul.
  destruct x as [s|s| |s m e]; intros Hv; cbn [SFmul];
    rewrite ?xorb_false_r; try reflexivity.
  unfold Double.valid, valid_binary, bounded, canonical_mantissa in Hv.
  apply andb_true_iff in Hv as [Hc He].
  apply Z.eqb_eq in Hc. apply Z.leb_le in He.
  change (Double.emax - Double.prec) with 971 in He.
  pose proof (digits2_pos_bounds m) as Hd.
  set (d := Zpos (digits2_pos m)) in *.
  assert (Hd' : Zpos (digits2_pos (m * 4503599627370496)) = d + 52).
  { apply digits2_pos_unique. rewrite Pos2Z.inj_mul.
    replace (d + 52 - 1) with (d - 1 + 52) by lia.
    rewrite !Z.pow_add_r by lia.
    change (2 ^ 52) with 4503599627370496. lia. }
  unfold binary_round_aux.
  assert (H1 : shr_fexp Double.prec Double.emax
                 (Zpos (m * 4503599627370496)) (e + -52) loc_Exact
               = (Build_shr_record (Zpos m) false false, e)).
  { unfold shr_fexp. cbn [Zdigits2]. rewrite Hd'.
    replace (d + 52 + (e + -52)) with (d + e) by lia. rewrite Hc.
    replace (e - (e + -52)) with 52 by lia.
    cbn [shr shr_record_of_loc]. rewrite shr_52_exact. f_equal. lia. }
  rewrite H1. cbn [shr_m loc_of_shr_record round_nearest_even].
  assert (H2 : shr_fexp Double.prec Double.emax (Zpos m) e loc_Exact
               = (Build_shr_record (Zpos m) false false, e)).
  { unfold shr_fexp. cbn [Zdigits2]. fold d. rewrite Hc, Z.sub_diag.
    reflexivity. }
  rewrite H2. cbn [shr_m].
  replace (e <=? Double.emax - Double.prec) with true
    by (symmetry; apply Z.leb_le; exact He).
  reflexivity.
Qed.

End MulOne.

(** ** The members, one by one *)

Section MemberProperties.

Context {n : nat}.
Implicit Types U : Unit n.

Import Overload Range.

(** X1. Division of a scalar by itself: the quotient is dimensionless, and
    its magnitude is 1 for every finite non-zero magnitude and NaN for a
    zero, an infinity or a NaN. *)
Theorem div_self_value U (x : Scalar U) :
  Scalar.unit_of (Scalar.div x x) = dimensionless
  /\ value (Scalar.div x x)
     = if Double.is_finite (value x) && negb (Scalar.isZero x)
       then Double.of_int 1 else Double.quiet_NaN.
Proof.
  split.
  - unfold Scalar.unit_of. apply SIUnitSub_diag.
  - destruct x as [[s|s| |s m e]]; unfold Scalar.isZero; cbn [value Scalar.div].
    + destruct s; reflexivity.
    + destruct s; reflexivity.
    + reflexivity.
    + rewrite div_self. destruct s; reflexivity.
Qed.

(** X2. Division by a zero never fails: the quotient is an infinity, or NaN
    when the dividend is itself a zero or a NaN. *)
Theorem div_by_zero U1 U2 (x : Scalar U1) (t : Scalar U2) :
  Scalar.isZero t = true ->
  Scalar.isInf (Scalar.div x t) = negb (Scalar.isZero x || Scalar.isNaN x)
  /\ Scalar.isNaN (Scalar.div x t) = Scalar.isZero x || Scalar.isNaN x.
Proof.
  intros Ht. apply eq_0_iff_zero in Ht as [st Ht].
  destruct x as [v], t as [w]. cbn [value] in Ht. subst w.
  unfold Scalar.isInf, Scalar.isNaN, Scalar.isZero, Scalar.div; cbn [value].
  rewrite !ne_self.
  destruct v as [s|s| |s m e]; try destruct s; destruct st;
    split; reflexivity.
Qed.

(** X3. The square root of a square: the unit is back to [U] whatever it
    was, and for a double whose square neither overflows nor underflows
    (and for zeros and infinities) the magnitude is exactly [|a|]; the
    result compares equal to the scalar one started from exactly when that
    one is not below zero. *)
Theorem sqrt_pow2_roundtrip U (a : Double.T) :
  Double.valid a = true -> square_safe a = true ->
  sqrt (Scalar.pow2 (mk U a)) = Some (pack (mk U (magnitude a)))
  /\ Scalar.eq (mk U (magnitude a)) (mk U a)
     = Scalar.ge (mk U a) (Scalar.zero U).
Proof.
  intros Hv Hs. split.
  - rewrite sqrt_value.
    rewrite SIUnitAdd_diag at 1. rewrite SIUnitDiv_SIUnitMul by lia.
    unfold Scalar.pow2, Scalar.mul. cbn [value].
    rewrite sqrt_mul_self_safe by assumption. reflexivity.
  - unfold Scalar.eq, Scalar.ge, Scalar.zero. cbn [value].
    apply magnitude_eq_ge. intros ->. discriminate.
Qed.

(** X4. [sqrt(x)] is well-formed exactly when every exponent of the unit of
    [x] is even; its unit is then the halved one, which doubled gives the
    unit of [x] back, and its magnitude is [std::sqrt(x.value)]. *)
Theorem sqrt_typing U (x : Scalar U) :
  sqrt x = (if divisible U 2
            then Some (pack (mk (vmap (fun e => e / 2) U)
                                (Double.sqrt (value x))))
            else None)
  /\ (if divisible U 2
      then bool_decide (SIUnitMul (vmap (fun e => e / 2) U) 2 = U)
      else true) = true.
Proof.
  rewrite sqrt_value. unfold SIUnitDiv.
  destruct (divisible U 2) eqn:Hd; split; try reflexivity.
  apply bool_decide_eq_true.
  apply (SIUnitDiv_Some_SIUnitMul U _ 2). unfold SIUnitDiv.
  rewrite Hd. reflexivity.
Qed.

(** X5. The square root of a magnitude below zero is NaN; no error is
    raised. *)
Theorem sqrt_of_negative U (x : Scalar (SIUnitMul U 2)) :
  Scalar.lt x (Scalar.zero (SIUnitMul U 2)) = true ->
  sqrt x = Some (pack (Scalar.nan U)).
Proof.
  intros Hx. rewrite sqrt_value.
  rewrite SIUnitDiv_SIUnitMul by lia.
  unfold Scalar.lt, Scalar.zero in Hx. cbn [value] in Hx.
  rewrite (sqrt_negative _ Hx). reflexivity.
Qed.

(** X6. A square is never below zero, and a value and its opposite have the
    same square. *)
Theorem pow2_properties U (x : Scalar U) :
  Scalar.lt (Scalar.pow2 x) (Scalar.zero (SIUnitAdd U U)) = false
  /\ Scalar.pow2 (Scalar.neg x) = Scalar.pow2 x.
Proof.
  destruct x as [v]. unfold Scalar.pow2, Scalar.mul, Scalar.neg, Scalar.lt,
    Scalar.zero; cbn [value]. split.
  - destruct (Double.lt (Double.mul v v) (Double.of_int 0)) eqn:H;
      [|reflexivity].
    apply lt_0_sign in H. destruct (mul_self_sign v) as [E|E]; rewrite E in H;
      discriminate.
  - f_equal. unfold Double.mul, Double.opp.
    destruct v as [s|s| |s m e]; cbn [SFopp SFmul]; try reflexivity;
      rewrite !xorb_nilpotent; reflexivity.
Qed.

(** X7. [mod]: whenever the dividend is finite and the divisor is a non-zero
    number, the remainder carries the sign of the dividend. *)
Theorem mod_sign_of_dividend U (x d : Scalar U) :
  Double.is_finite (value x) = true ->
  Scalar.isZero d = false -> Scalar.isNaN d = false ->
  Double.sign_of (value (Scalar.mod_ x d)) = Double.sign_of (value x).
Proof. intros Hx Hz Hn. apply fmod_sign; assumption. Qed.

(** X8. [mod] never fails: with a zero divisor or an infinite dividend the
    result is NaN. *)
Theorem mod_undefined_is_nan U (x d : Scalar U) :
  Scalar.isZero d || Scalar.isInf x = true ->
  Scalar.isNaN (Scalar.mod_ x d) = true.
Proof.
  intros H. apply ne_self_iff_nan. unfold Scalar.mod_; cbn [value].
  apply orb_true_iff in H as [H|H].
  - apply eq_0_iff_zero in H as [s ->].
    destruct (value x); reflexivity.
  - unfold Scalar.isInf in H. apply orb_true_iff in H.
    assert (Hx : exists s, value x = S754_infinity s).
    { destruct H as [H|H]; apply eq_infinity_iff in H; eauto. }
    destruct Hx as [s ->]. destruct (value d); reflexivity.
Qed.

(** X9. [abs]: the result is never below zero, taking it twice changes nothing,
    it is the value or its opposite, a NaN stays a NaN, and for any other
    value it compares equal to the magnitude [|x|] and to the result for
    the opposite value.  A negative zero keeps its sign bit, since
    [-0.0 < 0] is false. *)
Theorem abs_properties U (x : Scalar U) :
  Scalar.lt (Scalar.abs x) (Scalar.zero U) = false
  /\ Scalar.abs (Scalar.abs x) = Scalar.abs x
  /\ (Scalar.abs x = x \/ Scalar.abs x = Scalar.neg x)
  /\ Scalar.isNaN (Scalar.abs x) = Scalar.isNaN x
  /\ Scalar.eq (Scalar.abs (Scalar.neg x)) (Scalar.abs x)
     = negb (Scalar.isNaN x)
  /\ Scalar.eq (Scalar.abs x) (mk U (magnitude (value x)))
     = negb (Scalar.isNaN x)
  /\ value (Scalar.abs (mk U (S754_zero true))) = S754_zero true.
Proof.
  destruct x as [v].
  assert (H1 : Scalar.lt (Scalar.abs (mk U v)) (Scalar.zero U) = false).
  { unfold Scalar.lt, Scalar.abs, Scalar.zero; cbn [value].
    rewrite of_int_0. destruct v as [s|s| |s m e]; try destruct s; reflexivity. }
  split; [exact H1|]. split.
  { unfold Scalar.lt, Scalar.zero in H1. cbn [value] in H1.
    unfold Scalar.abs at 1. cbn [value] in *. rewrite H1.
    unfold Scalar.abs. reflexivity. }
  split.
  { unfold Scalar.abs, Scalar.neg. cbn [value].
    destruct (Double.lt v (Double.of_int 0)); auto. }
  split.
  { unfold Scalar.isNaN, Scalar.abs. cbn [value]. rewrite of_int_0.
    apply eq_true_iff_eq. rewrite !ne_self_iff_nan.
    destruct v as [s|s| |s m e]; try destruct s; cbn; split; congruence. }
  split; [|split; [|reflexivity]].
  - unfold Scalar.eq, Scalar.abs, Scalar.neg, Scalar.isNaN; cbn [value].
    rewrite of_int_0.
    destruct v as [s|s| |s m e]; try destruct s; try reflexivity.
    all: unfold Double.eq, Double.ne, SFeqb; cbn -[SFcompare];
      rewrite !SFcompare_refl by discriminate; reflexivity.
  - unfold Scalar.eq, Scalar.abs, Scalar.isNaN, magnitude; cbn [value].
    rewrite of_int_0.
    destruct v as [s|s| |s m e]; try destruct s; try reflexivity.
    all: unfold Double.eq, Double.ne, SFeqb; cbn -[SFcompare];
      rewrite !SFcompare_refl by discriminate; reflexivity.
Qed.

(** X10. [isInf] holds exactly for the two infinities; [infP()], [infN()] and
    [inf(dir)] for any [dir], NaN included, satisfy it, and no infinity is
    a NaN or a zero. *)
Theorem isInf_characterised U (x : Scalar U) :
  (Scalar.isInf x = true <-> exists s, value x = S754_infinity s)
  /\ Scalar.isInf (Scalar.infP U) = true
  /\ Scalar.isInf (Scalar.infN U) = true
  /\ Scalar.isInf (Scalar.inf x) = true
  /\ Scalar.isInf x && (Scalar.isNaN x || Scalar.isZero x) = false.
Proof.
  split.
  { unfold Scalar.isInf. rewrite orb_true_iff.
    unfold Scalar.infP, Scalar.infN, Double.infinity, Double.opp; cbn [value SFopp negb].
    rewrite !eq_infinity_iff. split.
    - intros [H|H]; eauto.
    - intros [[] H]; auto. }
  split; [reflexivity|]. split; [reflexivity|]. split.
  { unfold Scalar.inf. destruct (Double.lt _ _); reflexivity. }
  destruct x as [[s|s| |s m e]]; try destruct s; reflexivity.
Qed.

(** X11. Unary minus: taking it twice gives the value back, it exchanges the two
    infinities, and it reverses every comparison while keeping equality. *)
Theorem neg_properties U (x t : Scalar U) :
  Scalar.neg (Scalar.neg x) = x
  /\ Scalar.neg (Scalar.infP U) = Scalar.infN U
  /\ Scalar.neg (Scalar.infN U) = Scalar.infP U
  /\ Scalar.lt (Scalar.neg x) (Scalar.neg t) = Scalar.lt t x
  /\ Scalar.le (Scalar.neg x) (Scalar.neg t) = Scalar.le t x
  /\ Scalar.eq (Scalar.neg x) (Scalar.neg t) = Scalar.eq t x
  /\ Scalar.isNaN (Scalar.neg x) = Scalar.isNaN x.
Proof.
  destruct x as [v], t as [w].
  unfold Scalar.neg, Scalar.lt, Scalar.le, Scalar.eq, Scalar.isNaN,
    Double.lt, Double.le, Double.eq, Double.ne, Double.opp,
    SFltb, SFleb, SFeqb; cbn [value].
  rewrite !SFcompare_opp.
  repeat split; try reflexivity.
  destruct v as [s|s| |s m e]; cbn [SFopp]; rewrite ?negb_involutive; reflexivity.
Qed.

(** X12. The six comparison operators agree with one another: [>] and [>=] are
    [<] and [<=] with the operands exchanged, [<=] is [<] or [==], [!=] is
    the negation of [==], no two of [<], [==], [>] hold together, and one
    of them holds exactly when neither operand is NaN. *)
Theorem comparisons_consistent U (x t : Scalar U) :
  Scalar.gt x t = Scalar.lt t x
  /\ Scalar.ge x t = Scalar.le t x
  /\ Scalar.le x t = Scalar.lt x t || Scalar.eq x t
  /\ Scalar.ne x t = negb (Scalar.eq x t)
  /\ Scalar.eq x t = Scalar.eq t x
  /\ Scalar.lt x t && Scalar.eq x t = false
  /\ Scalar.lt x t && Scalar.gt x t = false
  /\ Scalar.eq x t && Scalar.gt x t = false
  /\ Scalar.lt x t || Scalar.eq x t || Scalar.gt x t
     = negb (Scalar.isNaN x || Scalar.isNaN t).
Proof.
  destruct x as [v], t as [w].
  unfold Scalar.gt, Scalar.ge, Scalar.lt, Scalar.le, Scalar.eq, Scalar.ne,
    Scalar.isNaN, Double.gt, Double.ge, Double.lt, Double.le, Double.eq,
    Double.ne, SFltb, SFleb, SFeqb; cbn [value].
  rewrite (SFcompare_swap v w).
  assert (Hcases : v = S754_nan \/ w = S754_nan
                   \/ (v <> S754_nan /\ w <> S754_nan
                       /\ exists c, SFcompare v w = Some c)).
  { destruct v as [s1|s1| |s1 m1 e1], w as [s2|s2| |s2 m2 e2]; auto;
      right; right; (split; [discriminate|split; [discriminate|]]);
      cbn [SFcompare]; eauto. }
  destruct Hcases as [->|[->|(Hv & Hw & c & Hc)]].
  - repeat split.
  - rewrite SFcompare_nan_r. cbn [option_map]. rewrite !orb_true_r.
    repeat split.
  - rewrite Hc, (SFcompare_refl v Hv), (SFcompare_refl w Hw).
    destruct c; repeat split.
Qed.

(** X13. [*=] and [/=] are well-formed at every unit, since multiplying or
    dividing by a dimensionless scalar leaves the unit as it is; the new
    state of the left operand holds the product, respectively the
    quotient.  [+=] and [-=] hold the sum and the difference. *)
Theorem compound_assignment U (x : Scalar U) (t : Scalar dimensionless)
    (u : Scalar U) :
  Scalar.mul_assign x t = Some (mk U (Double.mul (value x) (value t)))
  /\ Scalar.div_assign x t = Some (mk U (Double.div (value x) (value t)))
  /\ Scalar.add_assign x u = Scalar.add x u
  /\ Scalar.sub_assign x u = Scalar.sub x u.
Proof.
  split; [|split; [|split; reflexivity]].
  - unfold Scalar.mul_assign.
    rewrite (as_unit_eq _ _ (Scalar.mul x t) (SIUnitAdd_dimensionless U)).
    reflexivity.
  - unfold Scalar.div_assign.
    rewrite (as_unit_eq _ _ (Scalar.div x t) (SIUnitSub_dimensionless U)).
    reflexivity.
Qed.

(** X14. [strip] keeps the magnitude, and a stripped scalar can multiply or
    divide any scalar without changing its unit. *)
Theorem strip_properties U1 U2 (x : Scalar U1) (y : Scalar U2) :
  value (Scalar.strip y) = value y
  /\ Scalar.strip (Scalar.strip y) = Scalar.strip y
  /\ Scalar.unit_of (Scalar.mul x (Scalar.strip y)) = U1
  /\ Scalar.unit_of (Scalar.div x (Scalar.strip y)) = U1
  /\ Scalar.as_unit U1 (Scalar.mul x (Scalar.strip y))
     = Some (mk U1 (Double.mul (value x) (value y))).
Proof.
  split; [reflexivity|]. split; [reflexivity|].
  split; [apply SIUnitAdd_dimensionless|].
  split; [apply SIUnitSub_dimensionless|].
  rewrite (as_unit_eq _ _ (Scalar.mul x (Scalar.strip y))
             (SIUnitAdd_dimensionless U1)).
  reflexivity.
Qed.

(** X15. Units compose as the arithmetic does: dividing and then multiplying by
    a scalar of unit [U2] (or the other way round) gives back the unit
    [U1], the unit of a product does not depend on the order of the
    factors, and the unit of a square is twice the unit. *)
Theorem units_compose U1 U2 (x : Scalar U1) (t : Scalar U2) :
  Scalar.unit_of (Scalar.mul (Scalar.div x t) t) = U1
  /\ Scalar.unit_of (Scalar.div (Scalar.mul x t) t) = U1
  /\ Scalar.unit_of (Scalar.mul x t) = Scalar.unit_of (Scalar.mul t x)
  /\ Scalar.unit_of (Scalar.pow2 x) = SIUnitMul U1 2.
Proof.
  unfold Scalar.unit_of. split; [apply SIUnitAdd_SIUnitSub|].
  split; [apply SIUnitSub_SIUnitAdd|]. split; [apply SIUnitAdd_comm|].
  apply SIUnitAdd_diag.
Qed.

(** X16. Addition and multiplication do not depend on the order of the
    operands, subtraction is the addition of the opposite value, and the
    opposite of a factor or of a dividend gives the opposite of the product
    or of the quotient.  Equality is that of the model, which has a single
    NaN: the two sides are the same number, signed zeros and infinities
    included, or they are both NaN; the sign and payload of a NaN are not
    represented. *)
Theorem arithmetic_laws U1 U2 (x u : Scalar U1) (t : Scalar U2) :
  Scalar.add x u = Scalar.add u x
  /\ value (Scalar.mul x t) = value (Scalar.mul t x)
  /\ Scalar.sub x u = Scalar.add x (Scalar.neg u)
  /\ Scalar.mul (Scalar.neg x) t = Scalar.neg (Scalar.mul x t)
  /\ Scalar.div (Scalar.neg x) t = Scalar.neg (Scalar.div x t).
Proof.
  destruct x as [v], u as [w], t as [z].
  unfold Scalar.add, Scalar.mul, Scalar.sub, Scalar.neg, Scalar.div;
    cbn [value].
  split; [f_equal; apply add_comm|]. split; [apply mul_comm|].
  split; [f_equal; apply sub_add_opp|].
  split; f_equal; [apply mul_opp_l|apply div_opp_l].
Qed.

(** X17. [x - x] is (positive) zero for every finite [x] and NaN otherwise;
    adding [zero()] gives back a value equal to [x], unless [x] is NaN. *)
Theorem additive_identities U (x : Scalar U) :
  value (Scalar.sub x x)
  = (if Double.is_finite (value x) then S754_zero false else S754_nan)
  /\ Scalar.eq (Scalar.add x (Scalar.zero U)) x = negb (Scalar.isNaN x)
  /\ Scalar.eq (Scalar.add (Scalar.zero U) x) x = negb (Scalar.isNaN x).
Proof.
  destruct x as [v].
  unfold Scalar.sub, Scalar.add, Scalar.eq, Scalar.isNaN, Scalar.zero;
    cbn [value].
  rewrite (add_comm (Double.of_int 0) v).
  assert (H : Double.eq (Double.add v (Double.of_int 0)) v
              = negb (Double.ne v v)).
  { destruct v as [s|s| |s m e]; try reflexivity;
      rewrite add_zero_r by discriminate; unfold Double.ne, SFeqb;
      rewrite SFcompare_refl by discriminate; reflexivity. }
  split; [|split; exact H].
  destruct v as [s|s| |s m e]; try reflexivity.
  - apply (sub_diag_finite (S754_zero s)). reflexivity.
  - destruct s; reflexivity.
  - apply (sub_diag_finite (S754_finite s m e)). reflexivity.
Qed.

(** X18. A NaN operand makes the result of every arithmetic member a
    NaN. *)
Theorem nan_propagates U1 U2 (x t : Scalar U1) (u : Scalar U2) :
  Scalar.isNaN x = true ->
  Scalar.isNaN (Scalar.add x t) = true
  /\ Scalar.isNaN (Scalar.add t x) = true
  /\ Scalar.isNaN (Scalar.sub x t) = true
  /\ Scalar.isNaN (Scalar.sub t x) = true
  /\ Scalar.isNaN (Scalar.mul x u) = true
  /\ Scalar.isNaN (Scalar.mul u x) = true
  /\ Scalar.isNaN (Scalar.div x u) = true
  /\ Scalar.isNaN (Scalar.div u x) = true
  /\ Scalar.isNaN (Scalar.mod_ x t) = true
  /\ Scalar.isNaN (Scalar.mod_ t x) = true
  /\ Scalar.isNaN (Scalar.neg x) = true
  /\ Scalar.isNaN (Scalar.abs x) = true
  /\ Scalar.isNaN (Scalar.pow2 x) = true.
Proof.
  intros Hx. apply ne_self_iff_nan in Hx.
  destruct x as [v]. cbn [value] in Hx. subst v.
  destruct t as [[s|s| |s m e]], u as [[s'|s'| |s' m' e']];
    repeat split; reflexivity.
Qed.

(** X19. The truth value of a scalar: [operator!] is [isZero()], the boolean
    conversion is its negation, and NaN and the infinities count as true. *)
Theorem truth_value U (x : Scalar U) :
  Scalar.not x = Scalar.isZero x
  /\ Scalar.to_bool x = negb (Scalar.not x)
  /\ (if Scalar.isNaN x || Scalar.isInf x then Scalar.to_bool x else true)
     = true.
Proof.
  destruct x as [v].
  unfold Scalar.not, Scalar.isZero, Scalar.to_bool, Double.to_bool,
    Double.ne, Scalar.isNaN, Scalar.isInf; cbn [value].
  split; [|split].
  - apply negb_involutive.
  - destruct (SFeqb v (Double.of_int 0)); reflexivity.
  - destruct v as [s|s| |s m e]; try destruct s; try reflexivity.
    all: rewrite ne_self; reflexivity.
Qed.

(** X20. Multiplying by the dimensionless 1 changes nothing: the product
    has the unit and exactly the magnitude of [x], on either side, and
    [x *= Scalar<>(1)] leaves [x] as it is. *)
Theorem mul_by_one U (x : Scalar U) :
  Double.valid (value x) = true ->
  Scalar.mul_assign x (mk dimensionless (Double.of_int 1)) = Some x
  /\ value (Scalar.mul x (mk dimensionless (Double.of_int 1))) = value x
  /\ value (Scalar.mul (mk dimensionless (Double.of_int 1)) x) = value x.
Proof.
  intros Hv. destruct x as [v]. cbn [value] in Hv.
  unfold Scalar.mul_assign.
  rewrite (as_unit_eq _ _ (Scalar.mul (mk U v) _) (SIUnitAdd_dimensionless U)).
  unfold Scalar.mul. cbn [value].
  rewrite (mul_comm (Double.of_int 1) v), (mul_one_r v Hv). repeat split.
Qed.

(** X21. [<] is a strict order: it is transitive, and no scalar is below
    itself or below one that is below it. *)
Theorem lt_strict_order U (x t u : Scalar U) :
  Scalar.lt x t = true -> Scalar.lt t u = true ->
  Scalar.lt x u = true
  /\ Scalar.lt x x = false
  /\ Scalar.lt t x = false.
Proof.
  destruct x as [v], t as [w], u as [z]. unfold Scalar.lt; cbn [value].
  intros H1 H2. split; [exact (lt_trans v w z H1 H2)|].
  assert (Hirr : forall a, Double.lt a a = false).
  { intros a. destruct (Double.lt a a) eqn:E; [|reflexivity].
    unfold Double.lt, SFltb in E.
    destruct a as [s|s| |s m e]; try discriminate;
      rewrite SFcompare_refl in E by discriminate; discriminate. }
  split; [apply Hirr|].
  destruct (Double.lt w v) eqn:E; [|reflexivity].
  rewrite <- (Hirr v). symmetry. exact (lt_trans v w v H1 E).
Qed.

(** X22. The infinities bound every number: [infN() <= x <= infP()] unless
    [x] is NaN, and [infN() < infP()]. *)
Theorem infinities_bound U (x : Scalar U) :
  Scalar.le (Scalar.infN U) x = negb (Scalar.isNaN x)
  /\ Scalar.le x (Scalar.infP U) = negb (Scalar.isNaN x)
  /\ Scalar.lt (Scalar.infN U) (Scalar.infP U) = true.
Proof.
  destruct x as [v].
  unfold Scalar.le, Scalar.lt, Scalar.isNaN; cbn [value]. rewrite ne_self.
  destruct v as [s|s| |s m e]; try destruct s; repeat split.
Qed.

End MemberProperties.

(** ** Instances *)

Lemma div_by_zero_witness :
  Scalar.isZero (Scalar.zero time_unit) = true
  /\ Scalar.isInf (Scalar.div (mk length_unit (Double.of_int 1))
                              (Scalar.zero time_unit)) = true.
Proof.
  split; [reflexivity|].
  apply (proj1 (div_by_zero length_unit time_unit
                  (mk length_unit (Double.of_int 1)) (Scalar.zero time_unit)
                  eq_refl)).
Defined.

Lemma sqrt_pow2_roundtrip_witness :
  Double.valid (Double.of_int 3) = true
  /\ Range.square_safe (Double.of_int 3) = true
  /\ sqrt (Scalar.pow2 (mk length_unit (Double.of_int 3)))
     = Some (pack (mk length_unit (Double.of_int 3))).
Proof.
  split; [reflexivity|]. split; [reflexivity|].
  apply (proj1 (sqrt_pow2_roundtrip length_unit (Double.of_int 3)
                  eq_refl eq_refl)).
Defined.

Lemma sqrt_of_negative_witness :
  Scalar.lt (mk (SIUnitMul length_unit 2) (Double.of_int (-4)))
            (Scalar.zero (SIUnitMul length_unit 2)) = true
  /\ sqrt (mk (SIUnitMul length_unit 2) (Double.of_int (-4)))
     = Some (pack (Scalar.nan length_unit)).
Proof.
  split; [reflexivity|].
  apply (sqrt_of_negative length_unit
           (mk (SIUnitMul length_unit 2) (Double.of_int (-4)))).
  reflexivity.
Defined.

Lemma mod_sign_of_dividend_witness :
  Double.is_finite (Double.of_int (-7)) = true
  /\ Scalar.isZero (mk length_unit (Double.of_int 3)) = false
  /\ Scalar.isNaN (mk length_unit (Double.of_int 3)) = false
  /\ Double.sign_of
       (value (Scalar.mod_ (mk length_unit (Double.of_int (-7)))
                           (mk length_unit (Double.of_int 3))))
     = Some true.
Proof.
  split; [reflexivity|]. split; [reflexivity|]. split; [reflexivity|].
  apply (mod_sign_of_dividend length_unit
           (mk length_unit (Double.of_int (-7)))
           (mk length_unit (Double.of_int 3))); reflexivity.
Defined.

Lemma mod_undefined_is_nan_witness :
  Scalar.isZero (Scalar.zero length_unit)
  || Scalar.isInf (mk length_unit (Double.of_int 5)) = true
  /\ Scalar.isNaN (Scalar.mod_ (mk length_unit (Double.of_int 5))
                               (Scalar.zero length_unit)) = true.
Proof.
  split; [reflexivity|].
  apply (mod_undefined_is_nan length_unit
           (mk length_unit (Double.of_int 5)) (Scalar.zero length_unit)).
  reflexivity.
Defined.

Lemma nan_propagates_witness :
  Scalar.isNaN (Scalar.nan length_unit) = true
  /\ Scalar.isNaN (Scalar.add (Scalar.nan length_unit)
                              (mk length_unit (Double.of_int 2))) = true.
Proof.
  split; [reflexivity|].
  apply (proj1 (nan_propagates length_unit time_unit
                  (Scalar.nan length_unit) (mk length_unit (Double.of_int 2))
                  (Scalar.zero time_unit) eq_refl)).
Defined.

Lemma mul_by_one_witness :
  Double.valid (Double.of_int 3) = true
  /\ Scalar.mul_assign (mk length_unit (Double.of_int 3))
       (mk dimensionless (Double.of_int 1))
     = Some (mk length_unit (Double.of_int 3)).
Proof.
  split; [reflexivity|].
  apply (proj1 (mul_by_one length_unit (mk length_unit (Double.of_int 3))
                  eq_refl)).
Defined.

Lemma lt_strict_order_witness :
  Scalar.lt (mk length_unit (Double.of_int 1)) (mk length_unit (Double.of_int 2))
    = true
  /\ Scalar.lt (mk length_unit (Double.of_int 2))
               (mk length_unit (Double.of_int 3)) = true
  /\ Scalar.lt (mk length_unit (Double.of_int 1))
               (mk length_unit (Double.of_int 3)) = true.
Proof.
  split; [reflexivity|]. split; [reflexivity|].
  apply (proj1 (lt_strict_order length_unit
                  (mk length_unit (Double.of_int 1))
                  (mk length_unit (Double.of_int 2))
                  (mk length_unit (Double.of_int 3)) eq_refl eq_refl)).
Defined.
